(** * The anime view-count predictor (app.py): a shallow embedding

    The script loads a pickled regressor through a resource cache, renders
    a form, assembles a one-row table in the column order the regressor
    was fitted with, calls [predict] and renders one formatted number.

    Modelling choices, all read off app.py:
    - a run of the script is a computation in [M]: it threads the page
      being rendered, the log of [predict] invocations and the resource
      cache, and it may end in a raised exception.  The state survives a
      raise, as in Python;
    - what is raised is either an instance of Python's [Exception],
      which both [except] clauses of the script catch, or an exception
      outside that class (SystemExit, KeyboardInterrupt), which they let
      through;
    - integers are [Z]; a finite float is the rational it denotes ([Q]),
      and the floats that denote none (negative zero, the infinities,
      nan) are values of their own where the script prints a float;
    - a dict is an insertion-ordered association list, since the order of
      the keys decides the order of the columns;
    - the resource cache is a finite map keyed by the argument of the
      cached function. *)

From Stdlib Require Import ZArith QArith Qabs List String Ascii Lia.
From Stdlib Require Import DecimalFacts DecimalPos DecimalN.
From stdpp Require Import base option gmap strings.
Import ListNotations.
Local Open Scope string_scope.
Local Open Scope Z_scope.

(** ** Exceptions *)

Inductive exn_class :=
| FileNotFoundError
| KeyError
| IndexError
| TypeError
| OtherException (name : string).

(** An instance of [Exception]: its class and what [str(e)] gives. *)
Record exn := mkExn { exn_cls : exn_class; exn_str : string }.

(** What can be raised and is no instance of [Exception]: the other
    subclasses of [BaseException]. *)
Inductive base_exn :=
| SystemExit
| KeyboardInterrupt
| OtherBaseException (name : string).

Definition is_FileNotFoundError (e : exn) : bool :=
  match exn_cls e with FileNotFoundError => true | _ => false end.

Inductive result (A : Type) :=
| Ok (a : A)
| Raise (e : exn)
| RaiseBase (b : base_exn).
Arguments Ok {A} a.
Arguments Raise {A} e.
Arguments RaiseBase {A} b.

(** ** Table cells, dicts and data frames *)

Inductive cell :=
| Int (z : Z)
| Float (q : Q)
| NaN.

(** A Python dict with string keys, in insertion order. *)
Definition dict := list (string * cell).

(** [d[k] = v]: an existing key keeps its place, a new one goes last. *)
Fixpoint dict_set (d : dict) (k : string) (v : cell) : dict :=
  match d with
  | [] => [(k, v)]
  | (k', v') :: d' =>
      if String.eqb k' k then (k', v) :: d' else (k', v') :: dict_set d' k v
  end.

(** A dict display [{k1: v1, ..., kn: vn}] inserts its items left to right. *)
Definition dict_literal (items : list (string * cell)) : dict :=
  fold_left (fun d kv => dict_set d (fst kv) (snd kv)) items [].

Definition dict_keys (d : dict) : list string := map fst d.

Fixpoint dict_get (d : dict) (k : string) : option cell :=
  match d with
  | [] => None
  | (k', v) :: d' => if String.eqb k' k then Some v else dict_get d' k
  end.

Definition mem (k : string) (l : list string) : bool := existsb (String.eqb k) l.

Record DataFrame := mkDataFrame {
  columns : list string;
  rows : list (list cell)
}.

(** [pd.DataFrame(records)] for a list of dicts: the columns are the keys
    in order of first appearance, a key a record lacks gives NaN. *)
Definition union_keys (records : list dict) : list string :=
  fold_left (fun cols d => (cols ++ filter (fun k => negb (mem k cols)) (dict_keys d))%list)
            records [].

Definition DataFrame_of_records (records : list dict) : DataFrame :=
  let cols := union_keys records in
  {| columns := cols;
     rows := map (fun d => map (fun c => match dict_get d c with
                                         | Some v => v
                                         | None => NaN
                                         end) cols) records |}.

(** The cells of [row] that sit under a column labelled [k]. *)
Fixpoint select (k : string) (cols : list string) (row : list cell) : list cell :=
  match cols, row with
  | c :: cols', v :: row' =>
      if String.eqb c k then v :: select k cols' row' else select k cols' row'
  | _, _ => []
  end.

(** [df[keys]] with a list of labels: the selected columns in the order
    of [keys]; a label that is no column raises KeyError (the message is
    abridged). *)
Definition getitem (df : DataFrame) (keys : list string) : result DataFrame :=
  match filter (fun k => negb (mem k (columns df))) keys with
  | [] =>
      Ok {| columns := flat_map (fun k => filter (String.eqb k) (columns df)) keys;
            rows := map (fun row => flat_map (fun k => select k (columns df) row) keys)
                        (rows df) |}
  | missing => Raise (mkExn KeyError (String.concat ", " missing ++ " not in index"))
  end.

(** ** The model artifact *)

(** One element of the sequence [predict] returns: a float, or an object
    of a type that has no format of its own (None, a list, ...).  A
    float is a finite number other than negative zero ([Float64]),
    negative zero, an infinity or nan. *)
Inductive output :=
| Float64 (q : Q)
| NegativeZero
| Infinity (negative : bool)
| NotANumber
| Object (type_name : string).

(** An unpickled object other than None, seen through the one method
    the script calls: an object that lacks a working [predict] is one
    whose [predict] raises.  A call is taken to leave the object as it
    is: what [predict] does to the artifact's own state is the
    artifact's business, not the script's. *)
Record Model := mkModel {
  predict : DataFrame -> result (list output)
}.

(** ** The page, the cache and the script monad *)

(** What a run puts on the page.  Widgets carry the arguments that fix
    which values they can return. *)
Inductive element :=
| el_page_config (page_title page_icon : string)
| el_title (body : string)
| el_header (body : string)
| el_subheader (body : string)
| el_write (body : string)
| el_markdown (body : string)
| el_success (body : string)
| el_error (body : string)
| el_warning (body : string)
| el_balloons
| el_columns (n : nat)
| el_selectbox (label : string) (options : list (Z * string))
| el_number_input (label : string) (min_value : Z) (max_value : option Z) (value : Z)
| el_slider (label : string) (min_value max_value value step : Q)
| el_button (label : string).

(** What [st.cache_resource] keeps for one argument: the value the
    function returned and the elements it rendered, which a later hit
    replays. *)
Record cache_entry := mkEntry {
  cached_value : option Model;
  cached_elements : list element
}.

(** The state a run threads: the page so far, every invocation of
    [predict], every value a widget handed back to the script, and the
    process-wide resource cache. *)
Record run_state := mkState {
  page : list element;
  predict_calls : list (Model * DataFrame);
  returned : list (element * cell);
  resource_cache : gmap string cache_entry
}.

Definition M (A : Type) : Type := run_state -> result A * run_state.

#[global] Instance M_ret : MRet M := fun A a s => (Ok a, s).
#[global] Instance M_bind : MBind M := fun A B f c s =>
  match c s with
  | (Ok a, s') => f a s'
  | (Raise e, s') => (Raise e, s')
  | (RaiseBase b, s') => (RaiseBase b, s')
  end.

(** A pure step that may raise. *)
Definition lift {A} (r : result A) : M A := fun s => (r, s).

(** [try: body  except Exception as e: handler e]: what is raised
    outside [Exception] is not caught. *)
Definition try_except {A} (body : M A) (handler : exn -> M A) : M A := fun s =>
  match body s with
  | (Ok a, s') => (Ok a, s')
  | (Raise e, s') => handler e s'
  | (RaiseBase b, s') => (RaiseBase b, s')
  end.

Definition render (el : element) : M unit := fun s =>
  (Ok tt, {| page := (page s ++ [el])%list;
             predict_calls := predict_calls s;
             returned := returned s;
             resource_cache := resource_cache s |}).

(** A widget is rendered and hands back its current value. *)
Definition widget_returns (el : element) (v : cell) : M unit := fun s =>
  (Ok tt, {| page := (page s ++ [el])%list;
             predict_calls := predict_calls s;
             returned := (returned s ++ [(el, v)])%list;
             resource_cache := resource_cache s |}).

Fixpoint mapM {A B} (f : A -> result B) (l : list A) : result (list B) :=
  match l with
  | [] => Ok []
  | a :: l' =>
      match f a with
      | Raise e => Raise e
      | RaiseBase x => RaiseBase x
      | Ok b => match mapM f l' with
                | Raise e => Raise e
                | RaiseBase x => RaiseBase x
                | Ok bs => Ok (b :: bs)
                end
      end
  end.

(** [@st.cache_resource]: on a hit, replay the recorded elements and
    return the stored value without running [f]; on a miss run [f],
    and store what it returned and rendered unless it raised. *)
Definition cache_resource (f : string -> M (option Model)) (arg : string)
  : M (option Model) := fun s =>
  match resource_cache s !! arg with
  | Some entry =>
      (Ok (cached_value entry),
       {| page := (page s ++ cached_elements entry)%list;
          predict_calls := predict_calls s;
          returned := returned s;
          resource_cache := resource_cache s |})
  | None =>
      match f arg {| page := []; predict_calls := predict_calls s;
                     returned := returned s;
                     resource_cache := resource_cache s |} with
      | (Ok v, s') =>
          (Ok v,
           {| page := (page s ++ page s')%list;
              predict_calls := predict_calls s';
              returned := returned s';
              resource_cache := <[arg := mkEntry v (page s')]> (resource_cache s') |})
      | (Raise e, s') =>
          (Raise e,
           {| page := (page s ++ page s')%list;
              predict_calls := predict_calls s';
              returned := returned s';
              resource_cache := resource_cache s' |})
      | (RaiseBase b, s') =>
          (RaiseBase b,
           {| page := (page s ++ page s')%list;
              predict_calls := predict_calls s';
              returned := returned s';
              resource_cache := resource_cache s' |})
      end
  end.

(** [model.predict(df)]: the invocation is logged, the artifact decides
    the outcome. *)
Definition call_predict (m : Model) (df : DataFrame) : M (list output) := fun s =>
  (predict m df,
   {| page := page s;
      predict_calls := (predict_calls s ++ [(m, df)])%list;
      returned := returned s;
      resource_cache := resource_cache s |}).

(** *** Streamlit commands *)

(** A command renders its widget with the arguments it was given and
    hands back the value held for the widget: the option chosen, the
    number entered, the position of the handle.  The arguments of a
    number input and of a slider go to the front end; the value that
    comes back is handed to the script as it is, without a check
    against them. *)

Definition st_selectbox (label : string) (options : list Z)
    (format_func : Z -> result string) (chosen : Z) : M Z :=
  labels ← lift (mapM format_func options);
  widget_returns (el_selectbox label (combine options labels)) (Int chosen);;
  mret chosen.

Definition st_number_input (label : string) (min_value : Z) (max_value : option Z)
    (value : Z) (entered : Z) : M Z :=
  widget_returns (el_number_input label min_value max_value value) (Int entered);;
  mret entered.

Definition st_slider (label : string) (min_value max_value value step : Q)
    (position : Q) : M Q :=
  widget_returns (el_slider label min_value max_value value step) (Float position);;
  mret position.

Definition st_button (label : string) (clicked : bool) : M bool :=
  render (el_button label);;
  mret clicked.

(** The largest integer a number input handles: Streamlit keeps the
    integers of a number input within what a JavaScript number holds
    exactly, and this is the bound of an input declared without
    [max_value]. *)
Definition MAX_SAFE_INTEGER : Z := 2 ^ 53 - 1.

(** The domain a widget is declared with, read off its arguments: for
    a selectbox its options, for an integer number input the integers
    from [min_value] to [max_value], or to [MAX_SAFE_INTEGER] when no
    [max_value] is given, for a slider the numbers from [min_value] to
    [max_value].  The step of a slider is how far the handle moves at a
    time and is no part of the domain.  Keeping the user within the
    domain is left to Streamlit: the script does not check what a
    widget hands back. *)
Definition in_declared_domain (el : element) (v : cell) : bool :=
  match el, v with
  | el_selectbox _ options, Int z => existsb (Z.eqb z) (map fst options)
  | el_number_input _ lo hi _, Int z =>
      (lo <=? z) && (z <=? match hi with Some h => h | None => MAX_SAFE_INTEGER end)
  | el_slider _ lo hi _ _, Float q => Qle_bool lo q && Qle_bool q hi
  | _, _ => false
  end.



(** ** Number formatting: the format spec [,.2f] *)

Fixpoint uint_digits (u : Decimal.uint) : list ascii :=
  match u with
  | Decimal.Nil => []
  | Decimal.D0 u' => "0"%char :: uint_digits u'
  | Decimal.D1 u' => "1"%char :: uint_digits u'
  | Decimal.D2 u' => "2"%char :: uint_digits u'
  | Decimal.D3 u' => "3"%char :: uint_digits u'
  | Decimal.D4 u' => "4"%char :: uint_digits u'
  | Decimal.D5 u' => "5"%char :: uint_digits u'
  | Decimal.D6 u' => "6"%char :: uint_digits u'
  | Decimal.D7 u' => "7"%char :: uint_digits u'
  | Decimal.D8 u' => "8"%char :: uint_digits u'
  | Decimal.D9 u' => "9"%char :: uint_digits u'
  end.

(** The decimal digits of [n], most significant first; ["0"] for zero. *)
Definition decimal_digits (n : N) : list ascii := uint_digits (N.to_uint n).

Definition repr_Z (z : Z) : string :=
  string_of_list_ascii
    ((if z <? 0 then ["-"%char] else []) ++ decimal_digits (Z.abs_N z))%list.

(** A comma after every third digit, counted from the least significant
    one; the argument is the digit string reversed. *)
Fixpoint group_rev (l : list ascii) : list ascii :=
  match l with
  | a :: b :: c :: ((_ :: _) as rest) => a :: b :: c :: ","%char :: group_rev rest
  | _ => l
  end.

Definition group_thousands (ds : list ascii) : list ascii :=
  rev (group_rev (rev ds)).

(** Rounding to the nearest integer, an exact tie to the even one. *)
Definition round_half_even (q : Q) : Z :=
  let n := Qnum q in
  let d := Z.pos (Qden q) in
  let fl := n / d in
  match 2 * (n mod d) ?= d with
  | Lt => fl
  | Gt => fl + 1
  | Eq => if Z.even fl then fl else fl + 1
  end.

(** The number of hundredths [format(q, ',.2f')] prints, sign apart. *)
Definition hundredths (q : Q) : N :=
  Z.to_N (round_half_even (Qabs q * 100)).

Definition two_digits (n : N) : list ascii :=
  (uint_digits (N.to_uint (n / 10)) ++ uint_digits (N.to_uint (n mod 10)))%list.

Definition format_comma_2f (q : Q) : string :=
  let h := hundredths q in
  string_of_list_ascii
    ((match (q ?= 0)%Q with Lt => ["-"%char] | _ => [] end)
     ++ group_thousands (decimal_digits (h / 100))
     ++ ["."%char]
     ++ two_digits (h mod 100))%list.

(** [format(x, ',.2f')]: defined on floats, of which negative zero
    keeps its sign and the infinities and nan are spelled out;
    [object.__format__] raises TypeError on a format spec that is not
    empty. *)
Definition format_spec (x : output) : result string :=
  match x with
  | Float64 q => Ok (format_comma_2f q)
  | NegativeZero => Ok "-0.00"
  | Infinity negative => Ok (if negative then "-inf" else "inf")
  | NotANumber => Ok "nan"
  | Object t =>
      Raise (mkExn TypeError ("unsupported format string passed to " ++ t ++ ".__format__"))
  end.

(** [prediction[0]]. *)
Definition first (prediction : list output) : result output :=
  match prediction with
  | x :: _ => Ok x
  | [] => Raise (mkExn IndexError "index 0 is out of bounds for axis 0 with size 0")
  end.

(** ** The script *)

Definition MODEL_FILENAME : string := "random_forest_model.pkl".

Definition required_features : list string :=
  ["类型"; "是否改编"; "开播时间"; "是否独家"; "产地"; "集数"; "点赞数（PV）";
   "投币数（PV）"; "收藏数（PV）"; "分享数（PV）"; "Topic 0"; "Topic 1";
   "Topic 2"; "Topic 3"; "Topic 4"].

Definition type_options : list (Z * string) :=
  [(1, "少儿教育"); (2, "幻想冒险"); (3, "情感生活"); (4, "悬疑惊悚"); (5, "文艺历史")].

Definition adapted_options : list (Z * string) := [(0, "否"); (1, "是")].

Definition air_time_options : list (Z * string) :=
  [(0, "非假期档 (其他月份)"); (1, "假期档 (1,2,7,8月)")].

Definition exclusive_options : list (Z * string) := [(0, "否"); (1, "是")].

Definition origin_options : list (Z * string) := [(1, "日本"); (2, "美国"); (3, "中国")].

(** [list(d.keys())] and [d[x]] for the option dicts. *)
Definition keys (d : list (Z * string)) : list Z := map fst d.

Definition lookup_option (d : list (Z * string)) (x : Z) : result string :=
  match find (fun kv => Z.eqb (fst kv) x) d with
  | Some kv => Ok (snd kv)
  | None => Raise (mkExn KeyError (repr_Z x))
  end.

(** The fifteen variables the widgets are assigned to. *)
Record Inputs := mkInputs {
  type_val : Z;
  adapted_val : Z;
  air_time_val : Z;
  exclusive_val : Z;
  origin_val : Z;
  episodes_val : Z;
  likes_val : Z;
  coins_val : Z;
  collects_val : Z;
  shares_val : Z;
  topic_0_val : Q;
  topic_1_val : Q;
  topic_2_val : Q;
  topic_3_val : Q;
  topic_4_val : Q
}.

(** What the outside supplies to one run: the file system and the
    unpickler behind [load_model] (a pickle may hold None), what the
    user has set the widgets to and whether the button was clicked. *)
Record World := mkWorld {
  open_rb : string -> result (list Byte.byte);
  pickle_load : list Byte.byte -> result (option Model);
  user : Inputs;
  clicked : bool
}.

Definition load_model (w : World) (filename : string) : M (option Model) :=
  try_except
    (file ← lift (open_rb w filename);
     model ← lift (pickle_load w file);
     render (el_success "✅ 模型加载成功！");;
     mret model)
    (fun e =>
       if is_FileNotFoundError e then
         render (el_error ("❌ 错误: 模型文件 '" ++ filename
                           ++ "' 未找到。请确保模型文件与app.py在同一目录下。"));;
         mret None
       else
         render (el_error ("❌ 加载模型时出错: " ++ exn_str e));;
         mret None).

(** Lines 139-160: the dict of the fifteen collected values, the
    one-row frame made of it, and its columns put in the order of
    [required_features]. *)
Definition build_input_df (v : Inputs) : result DataFrame :=
  let input_data := dict_literal
    [("类型", Int (type_val v));
     ("是否改编", Int (adapted_val v));
     ("开播时间", Int (air_time_val v));
     ("是否独家", Int (exclusive_val v));
     ("产地", Int (origin_val v));
     ("集数", Int (episodes_val v));
     ("点赞数（PV）", Int (likes_val v));
     ("投币数（PV）", Int (coins_val v));
     ("收藏数（PV）", Int (collects_val v));
     ("分享数（PV）", Int (shares_val v));
     ("Topic 0", Float (topic_0_val v));
     ("Topic 1", Float (topic_1_val v));
     ("Topic 2", Float (topic_2_val v));
     ("Topic 3", Float (topic_3_val v));
     ("Topic 4", Float (topic_4_val v))] in
  let input_df := DataFrame_of_records [input_data] in
  getitem input_df required_features.

(** The body of [if st.button(...)]; [v] holds the fifteen variables the
    widgets were assigned to.  The frame is built outside the [try]. *)
Definition on_click (model : option Model) (v : Inputs) : M unit :=
  match model with
  | Some mdl =>
      input_df ← lift (build_input_df v);
      try_except
        (prediction ← call_predict mdl input_df;
         render el_balloons;;
         x ← lift (first prediction);
         text ← lift (format_spec x);
         render (el_success ("🎉 预测的总播放量为: **" ++ text ++ " 万**"));;
         render (el_write "（预测结果基于您输入的特征值和随机森林模型计算得出）"))
        (fun e => render (el_error ("❌ 预测过程中发生错误: " ++ exn_str e)))
  | None =>
      render (el_warning "模型尚未成功加载，无法进行预测。请检查模型文件。")
  end.

(** The form shown once a model is there.  Help tooltips are left out
    of the rendered elements; the three columns are rendered in order. *)
Definition form (model : option Model) (w : World) : M unit :=
  let u := user w in
  render (el_header "请填写动漫特征");;
  render (el_columns 3);;
  render (el_subheader "基本信息");;
  type_val ← st_selectbox "类型" (keys type_options)
                (lookup_option type_options) (type_val u);
  adapted_val ← st_selectbox "是否改编" (keys adapted_options)
                (lookup_option adapted_options) (adapted_val u);
  air_time_val ← st_selectbox "开播时间" (keys air_time_options)
                (lookup_option air_time_options) (air_time_val u);
  exclusive_val ← st_selectbox "是否独家" (keys exclusive_options)
                (lookup_option exclusive_options) (exclusive_val u);
  origin_val ← st_selectbox "产地" (keys origin_options)
                (lookup_option origin_options) (origin_val u);
  render (el_subheader "数据指标");;
  episodes_val ← st_number_input "集数" 1 (Some 500) 12 (episodes_val u);
  likes_val ← st_number_input "点赞数（个）" 0 None 50000 (likes_val u);
  coins_val ← st_number_input "投币数（个）" 0 None 20000 (coins_val u);
  collects_val ← st_number_input "收藏数（个）" 0 None 10000 (collects_val u);
  shares_val ← st_number_input "分享数（个）" 0 None 5000 (shares_val u);
  render (el_subheader "主题权重 (0-1之间)");;
  topic_0_val ← st_slider "Topic 0 权重" 0 1 (1 # 10) (1 # 100) (topic_0_val u);
  topic_1_val ← st_slider "Topic 1 权重" 0 1 (1 # 10) (1 # 100) (topic_1_val u);
  topic_2_val ← st_slider "Topic 2 权重" 0 1 (1 # 10) (1 # 100) (topic_2_val u);
  topic_3_val ← st_slider "Topic 3 权重" 0 1 (1 # 10) (1 # 100) (topic_3_val u);
  topic_4_val ← st_slider "Topic 4 权重" 0 1 (1 # 10) (1 # 100) (topic_4_val u);
  render (el_markdown "---");;
  pressed ← st_button "点击预测总播放量" (clicked w);
  if (pressed : bool) then
    on_click model
      (mkInputs type_val adapted_val air_time_val exclusive_val origin_val
                episodes_val likes_val coins_val collects_val shares_val
                topic_0_val topic_1_val topic_2_val topic_3_val topic_4_val)
  else mret tt.

Definition dq : string := String (ascii_of_nat 34) EmptyString.

Definition welcome : string := "
欢迎使用动漫总播放量预测应用。请在下方输入动漫的相关特征，我们将使用预训练的随机森林模型为您预测其预计的总播放量（万）。

您的模型文件 `random_forest_model.pkl` 已加载。
".

Definition feature_notes : string := "
    **特征说明:**
    *   **类型, 产地:** 经过预处理的类别编码。
    *   **是否改编, 开播时间, 是否独家:** 二值特征，通常0表示否，1表示是（开播时间1表示假期档，0表示非假期档）。
    *   **集数:** 动漫的总集数。
    *   **点赞/投币/收藏/分享数（PV）:** 表示该动漫在平台上的用户互动数据，通常是经过一定处理的累计值。
    *   **Topic 0-4:** 可能是通过主题模型（如LDA）从动漫简介或标签中提取出的主题分布权重，表示该动漫内容在不同主题上的倾向性。
    ".

Definition footer : string := "
    <style>
    .footer {
        position: fixed;
        left: 0;
        bottom: 0;
        width: 100%;
        background-color: #f0f2f6;
        color: gray;
        text-align: center;
        padding: 10px;
        font-size: 12px;
    }
    </style>
    <div class=" ++ dq ++ "footer" ++ dq ++ ">
        随机森林动漫总播放量预测应用 by [你的名字/团队名]
    </div>
    ".

(** Everything below the loading of the model: title, welcome text, the
    form when a model is there, notes and footer. *)
Definition layout (model : option Model) (w : World) : M unit :=
  render (el_title "📊 动漫总播放量预测应用");;
  render (el_write welcome);;
  match model with
  | Some _ => form model w
  | None => mret tt
  end;;
  render (el_markdown "---");;
  render (el_markdown feature_notes);;
  render (el_markdown footer).

(** app.py, top to bottom. *)
Definition app (w : World) : M unit :=
  render (el_page_config "动漫总播放量预测器" "📺");;
  model ← cache_resource (load_model w) MODEL_FILENAME;
  layout model w.

(** One run of the script in a process whose resource cache is [cache]:
    the page starts empty, the cache is what earlier runs left. *)
Definition run (w : World) (cache : gmap string cache_entry) : result unit * run_state :=
  app w {| page := []; predict_calls := []; returned := []; resource_cache := cache |}.

(** The value the global [model] of app.py gets in a run. *)
Definition loaded_model (w : World) (cache : gmap string cache_entry) : option Model :=
  match fst (cache_resource (load_model w) MODEL_FILENAME
               {| page := []; predict_calls := []; returned := []; resource_cache := cache |}) with
  | Ok model => model
  | Raise _ | RaiseBase _ => None
  end.

(** The cache of a process after the runs [history], oldest first. *)
Fixpoint cache_after (history : list World) (cache : gmap string cache_entry)
  : gmap string cache_entry :=
  match history with
  | [] => cache
  | w :: later => cache_after later (resource_cache (snd (run w cache)))
  end.

(** What the body of the first [try] comes to, rendering apart. *)
Definition load_attempt (w : World) (filename : string) : result (option Model) :=
  match open_rb w filename with
  | Ok file => pickle_load w file
  | Raise e => Raise e
  | RaiseBase b => RaiseBase b
  end.

(** What the body of the second [try] comes to, rendering apart. *)
Definition inference (m : Model) (df : DataFrame) : result string :=
  match predict m df with
  | Ok prediction =>
      match first prediction with
      | Ok x => format_spec x
      | Raise e => Raise e
      | RaiseBase b => RaiseBase b
      end
  | Raise e => Raise e
  | RaiseBase b => RaiseBase b
  end.

Definition not_found_message (filename : string) : string :=
  "❌ 错误: 模型文件 '" ++ filename ++ "' 未找到。请确保模型文件与app.py在同一目录下。".

Definition load_error_message (e : exn) : string := "❌ 加载模型时出错: " ++ exn_str e.

Definition predict_error_message (e : exn) : string := "❌ 预测过程中发生错误: " ++ exn_str e.

Definition result_message (text : string) : string :=
  "🎉 预测的总播放量为: **" ++ text ++ " 万**".

(** ** The data model of the spec (§3), to compare the script with *)

(** After §3 of the spec: the fifteen fields of a FeatureRow. *)
Inductive field :=
| f_type | f_is_adapted | f_air_time | f_is_exclusive | f_origin
| f_episode_count | f_likes | f_coins | f_collects | f_shares
| f_topic_0 | f_topic_1 | f_topic_2 | f_topic_3 | f_topic_4.

(** After §3 of the spec: the order in which the fields are listed. *)
Definition schema : list field :=
  [f_type; f_is_adapted; f_air_time; f_is_exclusive; f_origin;
   f_episode_count; f_likes; f_coins; f_collects; f_shares;
   f_topic_0; f_topic_1; f_topic_2; f_topic_3; f_topic_4].

(** After §3 of the spec: the domain of each field. *)
Definition spec_domain (f : field) (c : cell) : Prop :=
  match f, c with
  | f_type, Int z => In z [1; 2; 3; 4; 5]
  | (f_is_adapted | f_air_time | f_is_exclusive), Int z => In z [0; 1]
  | f_origin, Int z => In z [1; 2; 3]
  | f_episode_count, Int z => 1 <= z <= 500
  | (f_likes | f_coins | f_collects | f_shares), Int z => 0 <= z
  | (f_topic_0 | f_topic_1 | f_topic_2 | f_topic_3 | f_topic_4), Float q =>
      (0 <= q <= 1)%Q
  | _, _ => False
  end.

(** The domains the form offers: those of §3, the four counts being
    bounded by the largest integer a number input handles. *)
Definition form_domain (f : field) (c : cell) : Prop :=
  match f, c with
  | (f_likes | f_coins | f_collects | f_shares), Int z => 0 <= z <= MAX_SAFE_INTEGER
  | _, _ => spec_domain f c
  end.

(** How app.py names a field: the column of the frame, the label of the
    widget, and the variable the widget is assigned to. *)
Definition column_of (f : field) : string :=
  match f with
  | f_type => "类型" | f_is_adapted => "是否改编" | f_air_time => "开播时间"
  | f_is_exclusive => "是否独家" | f_origin => "产地" | f_episode_count => "集数"
  | f_likes => "点赞数（PV）" | f_coins => "投币数（PV）"
  | f_collects => "收藏数（PV）" | f_shares => "分享数（PV）"
  | f_topic_0 => "Topic 0" | f_topic_1 => "Topic 1" | f_topic_2 => "Topic 2"
  | f_topic_3 => "Topic 3" | f_topic_4 => "Topic 4"
  end.


Definition value_of (v : Inputs) (f : field) : cell :=
  match f with
  | f_type => Int (type_val v) | f_is_adapted => Int (adapted_val v)
  | f_air_time => Int (air_time_val v) | f_is_exclusive => Int (exclusive_val v)
  | f_origin => Int (origin_val v) | f_episode_count => Int (episodes_val v)
  | f_likes => Int (likes_val v) | f_coins => Int (coins_val v)
  | f_collects => Int (collects_val v) | f_shares => Int (shares_val v)
  | f_topic_0 => Float (topic_0_val v) | f_topic_1 => Float (topic_1_val v)
  | f_topic_2 => Float (topic_2_val v) | f_topic_3 => Float (topic_3_val v)
  | f_topic_4 => Float (topic_4_val v)
  end.

(** The one-row frame with the fields in schema order. *)
Definition schema_frame (v : Inputs) : DataFrame :=
  {| columns := map column_of schema; rows := [map (value_of v) schema] |}.

(** Every widget of the run handed back a value within the domain it
    was declared with. *)
Definition widgets_sound (s : run_state) : bool :=
  forallb (fun r => in_declared_domain (fst r) (snd r)) (returned s).

(** ** Sample artifacts, disks and inputs *)

Definition cell_value (c : cell) : Q :=
  match c with
  | Int z => inject_Z z
  | Float q => q
  | NaN => 0
  end.

(** A stand-in regressor: an eighth of the sum of the features of the
    single row; anything but one row of fifteen cells is a fault. *)
Definition sample_model : Model :=
  {| predict := fun df =>
       match rows df with
       | [row] =>
           if (length row =? 15)%nat
           then Ok [Float64 (fold_right Qplus 0 (map cell_value row) / 8)%Q]
           else Raise (mkExn (OtherException "ValueError") "X has the wrong number of features")
       | _ => Raise (mkExn (OtherException "ValueError") "expected a single sample")
       end |}.

(** An artifact fitted on fourteen features: every call is a fault. *)
Definition mismatched_model : Model :=
  {| predict := fun _ =>
       Raise (mkExn (OtherException "ValueError")
                    "X has 15 features, but RandomForestRegressor is expecting 14 features as input.") |}.

(** The inputs of the spec's scenario, which are also in range. *)
Definition scenario_inputs : Inputs :=
  mkInputs 2 1 1 0 1 12 50000 20000 10000 5000
           (1 # 10) (1 # 10) (1 # 10) (1 # 10) (1 # 10).


(** A disk that holds the pickle of [m] under the expected name. *)
Definition disk_with (m : Model) (v : Inputs) (pressed : bool) : World :=
  {| open_rb := fun f =>
       if String.eqb f MODEL_FILENAME then Ok []
       else Raise (mkExn FileNotFoundError
                         ("[Errno 2] No such file or directory: '" ++ f ++ "'"));
     pickle_load := fun _ => Ok (Some m);
     user := v;
     clicked := pressed |}.

(** A disk without the file. *)
Definition empty_disk (v : Inputs) (pressed : bool) : World :=
  {| open_rb := fun f =>
       Raise (mkExn FileNotFoundError
                    ("[Errno 2] No such file or directory: '" ++ f ++ "'"));
     pickle_load := fun _ => Ok (Some sample_model);
     user := v;
     clicked := pressed |}.

(** A disk whose file is no pickle. *)
Definition corrupt_disk (v : Inputs) (pressed : bool) : World :=
  {| open_rb := fun _ => Ok [];
     pickle_load := fun _ =>
       Raise (mkExn (OtherException "UnpicklingError") "pickle data was truncated");
     user := v;
     clicked := pressed |}.

(** A disk whose file is the pickle of None. *)
Definition none_disk (v : Inputs) (pressed : bool) : World :=
  {| open_rb := fun _ => Ok [];
     pickle_load := fun _ => Ok None;
     user := v;
     clicked := pressed |}.

(** A disk whose pickle, on being loaded, calls [sys.exit]. *)
Definition exiting_disk (v : Inputs) (pressed : bool) : World :=
  {| open_rb := fun _ => Ok [];
     pickle_load := fun _ => RaiseBase SystemExit;
     user := v;
     clicked := pressed |}.


(** An artifact that answers with nan. *)
Definition nan_model : Model := {| predict := fun _ => Ok [NotANumber] |}.

Definition fresh : run_state :=
  {| page := []; predict_calls := []; returned := []; resource_cache := ∅ |}.

(** ** Closed forms of what a run renders *)

(** What [load_model] renders: one notice, or nothing when the load is
    left by an exception the handlers let through. *)
Definition load_notice (w : World) (filename : string) : list element :=
  match load_attempt w filename with
  | Ok _ => [el_success "✅ 模型加载成功！"]
  | Raise e =>
      [el_error (if is_FileNotFoundError e then not_found_message filename
                 else load_error_message e)]
  | RaiseBase _ => []
  end.

(** How [load_model] ends: with the unpickled object, with None after a
    caught fault, or with the exception its handlers let through. *)
Definition load_outcome (w : World) (filename : string) : result (option Model) :=
  match load_attempt w filename with
  | Ok v => Ok v
  | Raise _ => Ok None
  | RaiseBase b => RaiseBase b
  end.

(** What the cached [load_model] puts on the page: on a hit the
    replayed elements, on a miss what this load renders. *)
Definition loading (w : World) (cache : gmap string cache_entry) : list element :=
  match cache !! MODEL_FILENAME with
  | Some entry => cached_elements entry
  | None => load_notice w MODEL_FILENAME
  end.

(** The exception that ends a run at the load, if one does: only a
    miss runs the load. *)
Definition load_exit (w : World) (cache : gmap string cache_entry) : option base_exn :=
  match cache !! MODEL_FILENAME with
  | Some _ => None
  | None =>
      match load_attempt w MODEL_FILENAME with
      | RaiseBase b => Some b
      | _ => None
      end
  end.

(** The widgets of the form and what they hand back, read off a run of
    [form] in which the button is not clicked. *)
Definition form_page : list element :=
  page (snd (form None (empty_disk scenario_inputs false) fresh)).

Definition form_returned (v : Inputs) : list (element * cell) :=
  returned (snd (form None (empty_disk v false) fresh)).

(** What a click adds below the button, given what [predict] returned. *)
Definition click_elements (r : result (list output)) : list element :=
  match r with
  | Raise e => [el_error (predict_error_message e)]
  | RaiseBase _ => []
  | Ok prediction =>
      el_balloons ::
      match first prediction with
      | Raise e => [el_error (predict_error_message e)]
      | RaiseBase _ => []
      | Ok x =>
          match format_spec x with
          | Raise e => [el_error (predict_error_message e)]
          | RaiseBase _ => []
          | Ok text => [el_success (result_message text);
                        el_write "（预测结果基于您输入的特征值和随机森林模型计算得出）"]
          end
      end
  end.

(** The exception that ends a run at the click, if one does: one that
    [predict] raises outside [Exception]. *)
Definition click_exit (m : Model) (w : World) : option base_exn :=
  if clicked w then
    match predict m (schema_frame (user w)) with
    | RaiseBase b => Some b
    | _ => None
    end
  else None.

Definition click_page (m : Model) (w : World) : list element :=
  if clicked w then click_elements (predict m (schema_frame (user w))) else [].

Definition click_calls (m : Model) (w : World) : list (Model * DataFrame) :=
  if clicked w then [(m, schema_frame (user w))] else [].

Definition top : list element :=
  [el_title "📊 动漫总播放量预测应用"; el_write welcome].

Definition bottom : list element :=
  [el_markdown "---"; el_markdown feature_notes; el_markdown footer].

(** The entries [load_model] leaves in the cache: one notice, a success
    with what was unpickled or an error with None. *)
Definition entry_wf (entry : cache_entry) : Prop :=
  exists body,
    cached_elements entry = [el_success body] \/
    (cached_elements entry = [el_error body] /\ cached_value entry = None).

Definition cache_wf (cache : gmap string cache_entry) : Prop :=
  forall entry, cache !! MODEL_FILENAME = Some entry -> entry_wf entry.

Definition is_digit (c : ascii) : bool :=
  (48 <=? nat_of_ascii c)%nat && (nat_of_ascii c <=? 57)%nat.

(** Groups of digits written with commas between them. *)
Fixpoint join_commas (groups : list (list ascii)) : list ascii :=
  match groups with
  | [] => []
  | [g] => g
  | g :: rest => (g ++ ","%char :: join_commas rest)%list
  end.

(** What [layout] adds between title and footer, calls and hands back. *)
Definition body_page (model : option Model) (w : World) : list element :=
  match model with
  | Some m => (form_page ++ click_page m w)%list
  | None => []
  end.

Definition body_calls (model : option Model) (w : World) : list (Model * DataFrame) :=
  match model with
  | Some m => click_calls m w
  | None => []
  end.

Definition body_returned (model : option Model) (w : World) : list (element * cell) :=
  match model with
  | Some _ => form_returned (user w)
  | None => []
  end.

(** The exception that ends the body of the page, and what follows the
    body when none does. *)
Definition body_exit (model : option Model) (w : World) : option base_exn :=
  match model with
  | Some m => click_exit m w
  | None => None
  end.

(** How a run ends, given the exception that ends it if one does. *)
Definition ending (x : option base_exn) : result unit :=
  match x with
  | Some b => RaiseBase b
  | None => Ok tt
  end.

Definition closing (model : option Model) (w : World) : list element :=
  match body_exit model w with
  | Some _ => []
  | None => bottom
  end.

(** The value [load_model] returns, and the cache a run leaves: a load
    that an exception leaves is not stored. *)
Definition load_value (w : World) (filename : string) : option Model :=
  match load_attempt w filename with
  | Ok v => v
  | Raise _ | RaiseBase _ => None
  end.

Definition next_cache (w : World) (cache : gmap string cache_entry)
  : gmap string cache_entry :=
  match load_exit w cache, cache !! MODEL_FILENAME with
  | None, None =>
      <[MODEL_FILENAME := mkEntry (load_value w MODEL_FILENAME)
                                  (load_notice w MODEL_FILENAME)]> cache
  | _, _ => cache
  end.

(** The state [s] with [els] added to the page. *)
Definition rendered (els : list element) (s : run_state) : run_state :=
  {| page := (page s ++ els)%list;
     predict_calls := predict_calls s;
     returned := returned s;
     resource_cache := resource_cache s |}.

(** The number a string of decimal digits denotes. *)
Definition digit_value (c : ascii) : N := (N_of_ascii c - 48)%N.

Definition digits_value (ds : list ascii) : N :=
  fold_left (fun acc c => 10 * acc + digit_value c)%N ds 0%N.

(** The shape of a number printed with [,.2f]: an optional sign, digits
    in groups of three from the right with commas between and no
    needless leading zero, a point, two digits; read as one number the
    digits give the hundredths, which are at most half a hundredth away
    from the value. *)
Definition comma_2f_shape (q : Q) (text : string) : Prop :=
  exists (sign leading : list ascii) (more : list (list ascii)) (d1 d2 : ascii),
    list_ascii_of_string text
      = (sign ++ join_commas (leading :: more) ++ ["."%char; d1; d2])%list
    /\ ((q < 0)%Q /\ sign = ["-"%char] \/ (0 <= q)%Q /\ sign = [])
    /\ (1 <= length leading <= 3)%nat
    /\ Forall (fun g => length g = 3%nat) more
    /\ forallb is_digit (concat (leading :: more) ++ [d1; d2]) = true
    /\ (forall rest, concat (leading :: more) = "0"%char :: rest -> rest = [])
    /\ (100 * digits_value (concat (leading :: more)) + digits_value [d1; d2])%N
       = hundredths q
    /\ (Qabs (inject_Z (Z.of_N (hundredths q)) - Qabs q * 100) <= 1 # 2)%Q.

Definition is_warning (el : element) : bool :=
  match el with el_warning _ => true | _ => false end.

Definition is_button (el : element) : bool :=
  match el with el_button _ => true | _ => false end.


(** The cell a record puts under column [c]: its value, NaN if it has
    no such key. *)
Definition cell_at (d : dict) (c : string) : cell :=
  match dict_get d c with
  | Some v => v
  | None => NaN
  end.

(** An artifact that answers with an empty sequence. *)
Definition silent_model : Model := {| predict := fun _ => Ok [] |}.

Definition predict_button : element := el_button "点击预测总播放量".

Definition result_note : element :=
  el_write "（预测结果基于您输入的特征值和随机森林模型计算得出）".

(** The form above the button, and the page above the button. *)
Definition form_widgets : list element := removelast form_page.

Definition above_button (w : World) (cache : gmap string cache_entry) : list element :=
  (el_page_config "动漫总播放量预测器" "📺" :: loading w cache ++ top ++ form_widgets)%list.

(** * Properties *)

(** Running a computation: the projections of the state are reduced
    along with the binds, so that the state stays small. *)
Ltac unfold_monad :=
  cbv [mbind M_bind mret M_ret lift try_except call_predict render
       widget_returns page predict_calls returned resource_cache].

Ltac fields := cbn [page predict_calls returned resource_cache fst snd].

(** ** The script in closed form *)

(** The frame is always built, and it is the schema frame. *)
Lemma build_input_df_ok v : build_input_df v = Ok (schema_frame v).
Proof. reflexivity. Qed.

Lemma load_model_run w filename s :
  load_model w filename s =
  (load_outcome w filename, rendered (load_notice w filename) s).
Proof.
  unfold load_model, load_outcome, load_notice, load_attempt, rendered. unfold_monad.
  destruct s as [pg calls ret cache]. fields.
  destruct (open_rb w filename) as [file|e|b].
  - destruct (pickle_load w file) as [m|e|b]; [reflexivity| |].
    + destruct (is_FileNotFoundError e); reflexivity.
    + now rewrite app_nil_r.
  - destruct (is_FileNotFoundError e); reflexivity.
  - now rewrite app_nil_r.
Qed.

Lemma on_click_run m v s :
  on_click (Some m) v s =
  (match predict m (schema_frame v) with
   | RaiseBase b => RaiseBase b
   | _ => Ok tt
   end,
   {| page := (page s ++ click_elements (predict m (schema_frame v)))%list;
      predict_calls := (predict_calls s ++ [(m, schema_frame v)])%list;
      returned := returned s;
      resource_cache := resource_cache s |}).
Proof.
  unfold on_click. rewrite build_input_df_ok.
  unfold click_elements. unfold_monad.
  destruct (predict m (schema_frame v)) as [[|x p']|e|b]; fields; cbn [first];
    try destruct x as [q| |negative| |t]; cbn [format_spec]; fields;
    repeat rewrite <- app_assoc; try rewrite app_nil_r; reflexivity.
Qed.

Lemma form_run m w s :
  form (Some m) w s =
  (ending (click_exit m w),
   {| page := (page s ++ form_page ++ click_page m w)%list;
      predict_calls := (predict_calls s ++ click_calls m w)%list;
      returned := (returned s ++ form_returned (user w))%list;
      resource_cache := resource_cache s |}).
Proof.
  unfold click_page, click_calls, click_exit, ending.
  cbv [form st_selectbox st_number_input st_slider st_button
       mbind M_bind mret M_ret lift render widget_returns
       page predict_calls returned resource_cache
       mapM keys map fst snd type_options adapted_options air_time_options
       exclusive_options origin_options lookup_option find Z.eqb Pos.eqb combine].
  destruct (clicked w).
  - rewrite on_click_run. fields.
    match goal with
    | |- context [mkInputs ?a ?b ?c ?d ?e ?f ?g ?h ?i ?j ?k ?l ?m ?n ?o] =>
        change (schema_frame (mkInputs a b c d e f g h i j k l m n o))
          with (schema_frame (user w))
    end.
    f_equal.
    + destruct (predict m (schema_frame (user w))); reflexivity.
    + f_equal.
      * repeat rewrite <- app_assoc. reflexivity.
      * repeat rewrite <- app_assoc. reflexivity.
  - f_equal. f_equal.
    + rewrite app_nil_r. repeat rewrite <- app_assoc. reflexivity.
    + rewrite app_nil_r. reflexivity.
    + repeat rewrite <- app_assoc. reflexivity.
Qed.

Lemma layout_run model w s :
  layout model w s =
  (ending (body_exit model w),
   {| page := (page s ++ top ++ body_page model w ++ closing model w)%list;
      predict_calls := (predict_calls s ++ body_calls model w)%list;
      returned := (returned s ++ body_returned model w)%list;
      resource_cache := resource_cache s |}).
Proof.
  unfold layout, top, bottom, closing, body_exit, body_page, body_calls, body_returned.
  destruct model as [m|].
  - unfold_monad. fields. rewrite form_run. fields.
    destruct (click_exit m w) as [b|]; cbn [ending]; fields.
    + f_equal. f_equal. rewrite !app_nil_r. repeat rewrite <- app_assoc. reflexivity.
    + f_equal. f_equal. repeat rewrite <- app_assoc. reflexivity.
  - unfold_monad. fields. rewrite !app_nil_r.
    f_equal. f_equal. repeat rewrite <- app_assoc. reflexivity.
Qed.

Lemma loaded_model_eq w cache :
  loaded_model w cache =
  match cache !! MODEL_FILENAME with
  | Some entry => cached_value entry
  | None => load_value w MODEL_FILENAME
  end.
Proof.
  unfold loaded_model, cache_resource. fields.
  destruct (cache !! MODEL_FILENAME); [reflexivity|].
  rewrite load_model_run. unfold load_outcome, load_value.
  destruct (load_attempt w MODEL_FILENAME); reflexivity.
Qed.

(** A run that the load ends has rendered nothing but the page
    configuration, has no model and leaves the cache as it found it. *)
Lemma load_exit_some w cache b :
  load_exit w cache = Some b ->
  cache !! MODEL_FILENAME = None /\ load_attempt w MODEL_FILENAME = RaiseBase b.
Proof.
  unfold load_exit.
  destruct (cache !! MODEL_FILENAME); [discriminate|].
  destruct (load_attempt w MODEL_FILENAME); try discriminate.
  intros [= ->]. auto.
Qed.

Lemma load_exit_none w cache :
  load_exit w cache = None ->
  (exists entry, cache !! MODEL_FILENAME = Some entry)
  \/ (cache !! MODEL_FILENAME = None
      /\ forall b, load_attempt w MODEL_FILENAME <> RaiseBase b).
Proof.
  unfold load_exit.
  destruct (cache !! MODEL_FILENAME) as [entry|]; [left; eauto|right].
  split; [reflexivity|].
  destruct (load_attempt w MODEL_FILENAME); discriminate.
Qed.

Lemma load_exit_loaded w cache b :
  load_exit w cache = Some b ->
  loaded_model w cache = None /\ loading w cache = [] /\ next_cache w cache = cache.
Proof.
  intros H. rewrite loaded_model_eq. unfold loading, next_cache, load_value, load_notice.
  rewrite H. apply load_exit_some in H as [-> ->]. auto.
Qed.

Lemma run_closed w cache :
  run w cache =
  match load_exit w cache with
  | Some b =>
      (RaiseBase b,
       {| page := [el_page_config "动漫总播放量预测器" "📺"];
          predict_calls := [];
          returned := [];
          resource_cache := cache |})
  | None =>
      (ending (body_exit (loaded_model w cache) w),
       {| page := (el_page_config "动漫总播放量预测器" "📺" :: loading w cache ++ top
                   ++ body_page (loaded_model w cache) w
                   ++ closing (loaded_model w cache) w)%list;
          predict_calls := body_calls (loaded_model w cache) w;
          returned := body_returned (loaded_model w cache) w;
          resource_cache := next_cache w cache |})
  end.
Proof.
  rewrite loaded_model_eq.
  unfold run, app, loading, next_cache, load_exit, cache_resource. unfold_monad. fields.
  destruct (cache !! MODEL_FILENAME) as [entry|].
  - rewrite layout_run. fields. reflexivity.
  - rewrite load_model_run. unfold rendered, load_outcome, load_value, load_notice. fields.
    destruct (load_attempt w MODEL_FILENAME) as [v|e|b]; fields.
    + rewrite layout_run. fields. reflexivity.
    + rewrite layout_run. fields. reflexivity.
    + reflexivity.
Qed.


Lemma run_page w cache :
  page (snd (run w cache)) =
  (el_page_config "动漫总播放量预测器" "📺" ::
   match load_exit w cache with
   | Some _ => []
   | None => loading w cache ++ top ++ body_page (loaded_model w cache) w
             ++ closing (loaded_model w cache) w
   end)%list.
Proof. rewrite run_closed. destruct (load_exit w cache); reflexivity. Qed.

(** The page of a run that no exception cuts short. *)
Lemma run_page_whole w cache :
  load_exit w cache = None -> body_exit (loaded_model w cache) w = None ->
  page (snd (run w cache)) =
  (el_page_config "动漫总播放量预测器" "📺" :: loading w cache ++ top
   ++ body_page (loaded_model w cache) w ++ bottom)%list.
Proof. intros Hl Hb. rewrite run_page, Hl. unfold closing. now rewrite Hb. Qed.

Lemma run_calls w cache :
  predict_calls (snd (run w cache)) = body_calls (loaded_model w cache) w.
Proof.
  rewrite run_closed. destruct (load_exit w cache) eqn:E; [|reflexivity].
  apply load_exit_loaded in E as (-> & _). reflexivity.
Qed.


Lemma run_cache w cache : resource_cache (snd (run w cache)) = next_cache w cache.
Proof.
  rewrite run_closed. destruct (load_exit w cache) eqn:E; [|reflexivity].
  apply load_exit_loaded in E as (_ & _ & ->). reflexivity.
Qed.

(** A model that is there rules out an exception at the load. *)
Lemma loaded_no_load_exit w cache m :
  loaded_model w cache = Some m -> load_exit w cache = None.
Proof.
  intros Hm. destruct (load_exit w cache) eqn:E; [|reflexivity].
  apply load_exit_loaded in E as (E & _). congruence.
Qed.

(** [predict] is invoked only with a loaded model, on a click, and then
    once, on the schema frame of the current inputs. *)
Lemma run_calls_cases w cache :
  predict_calls (snd (run w cache)) =
  match loaded_model w cache with
  | Some m => if clicked w then [(m, schema_frame (user w))] else []
  | None => []
  end.
Proof. rewrite run_calls. reflexivity. Qed.

Lemma call_inv w cache m df :
  In (m, df) (predict_calls (snd (run w cache))) ->
  loaded_model w cache = Some m /\ clicked w = true /\ df = schema_frame (user w).
Proof.
  rewrite run_calls_cases.
  destruct (loaded_model w cache) as [m'|]; [|intros []].
  destruct (clicked w); [|intros []].
  intros [H|[]]. inversion H; subst. auto.
Qed.

(** ** The feature schema *)

(** C1 — Whatever frame the script passes to [predict] has the fifteen
    columns of [required_features], which are the fields of §3 in the
    order of §3, and its single row holds the values of the fifteen
    widget variables in that same order; the frame depends on nothing
    but those values, so two requests with the same field values pass
    the same frame. *)
Theorem predict_input_in_schema_order w cache m df :
  In (m, df) (predict_calls (snd (run w cache))) ->
  columns df = required_features
  /\ columns df = map column_of schema
  /\ length (columns df) = 15%nat
  /\ rows df =
       [[Int (type_val (user w)); Int (adapted_val (user w));
         Int (air_time_val (user w)); Int (exclusive_val (user w));
         Int (origin_val (user w)); Int (episodes_val (user w));
         Int (likes_val (user w)); Int (coins_val (user w));
         Int (collects_val (user w)); Int (shares_val (user w));
         Float (topic_0_val (user w)); Float (topic_1_val (user w));
         Float (topic_2_val (user w)); Float (topic_3_val (user w));
         Float (topic_4_val (user w))]]
  /\ rows df = [map (value_of (user w)) schema]
  /\ (forall w' cache' m' df',
        user w' = user w ->
        In (m', df') (predict_calls (snd (run w' cache'))) -> df' = df).
Proof.
  intros Hcall. apply call_inv in Hcall as (_ & _ & ->).
  repeat split; try reflexivity.
  intros w' cache' m' df' Huser Hcall'.
  apply call_inv in Hcall' as (_ & _ & ->). now rewrite Huser.
Qed.

Lemma predict_input_in_schema_order_witness :
  In (sample_model, schema_frame scenario_inputs)
     (predict_calls (snd (run (disk_with sample_model scenario_inputs true) ∅)))
  /\ columns (schema_frame scenario_inputs) = required_features.
Proof.
  assert (H : In (sample_model, schema_frame scenario_inputs)
                 (predict_calls (snd (run (disk_with sample_model scenario_inputs true) ∅))))
    by (vm_compute; left; reflexivity).
  split; [exact H|].
  apply (predict_input_in_schema_order _ _ _ _ H).
Defined.

(** ** The cached load *)

Lemma cache_resource_load w arg s :
  cache_resource (load_model w) arg s =
  match resource_cache s !! arg with
  | Some entry => (Ok (cached_value entry), rendered (cached_elements entry) s)
  | None =>
      match load_attempt w arg with
      | RaiseBase b => (RaiseBase b, s)
      | _ =>
          (Ok (load_value w arg),
           {| page := (page s ++ load_notice w arg)%list;
              predict_calls := predict_calls s;
              returned := returned s;
              resource_cache :=
                <[arg := mkEntry (load_value w arg) (load_notice w arg)]> (resource_cache s) |})
      end
  end.
Proof.
  unfold cache_resource.
  destruct (resource_cache s !! arg); [reflexivity|].
  rewrite load_model_run. unfold load_outcome, load_value, load_notice, rendered. fields.
  destruct s as [pg calls ret cache]. fields.
  destruct (load_attempt w arg); fields; try reflexivity.
  now rewrite app_nil_r.
Qed.

(** Once a run has got past the load, the cache answers for the file:
    later runs get the handle (or the absence of one) that this run got. *)
Lemma loaded_model_kept w w' cache :
  load_exit w cache = None ->
  loaded_model w' (next_cache w cache) = loaded_model w cache.
Proof.
  intros Hl. rewrite !loaded_model_eq. unfold next_cache. rewrite Hl.
  destruct (cache !! MODEL_FILENAME) as [entry|] eqn:E.
  - now rewrite E.
  - now rewrite lookup_insert_eq.
Qed.

(** C8 — Two calls of the cached [load_model] with the same path, the
    second in the state the first left and whatever the disk holds by
    then: if the first returned a handle, the second returns that very
    handle, so both give the same prediction on every frame. *)
Theorem load_twice_same_handle w1 w2 path s m1 s1 :
  cache_resource (load_model w1) path s = (Ok (Some m1), s1) ->
  exists m2 s2,
    cache_resource (load_model w2) path s1 = (Ok (Some m2), s2)
    /\ m2 = m1
    /\ forall df, predict m2 df = predict m1 df.
Proof.
  rewrite !cache_resource_load. intros H.
  assert (Hhit : exists entry,
             resource_cache s1 !! path = Some entry /\ cached_value entry = Some m1).
  { destruct (resource_cache s !! path) as [entry|] eqn:E.
    - injection H as Hv Hs. subst s1. exists entry. split; [exact E|exact Hv].
    - destruct (load_attempt w1 path); try discriminate H;
        injection H as Hv Hs; subst s1; fields;
        (eexists; split; [apply lookup_insert_eq|exact Hv]). }
  destruct Hhit as (entry & -> & Hv).
  exists m1, (rendered (cached_elements entry) s1). rewrite Hv. auto.
Qed.

Lemma load_twice_same_handle_witness :
  exists m2 s2,
    cache_resource (load_model (corrupt_disk scenario_inputs true)) MODEL_FILENAME
      (snd (cache_resource (load_model (disk_with sample_model scenario_inputs false))
                           MODEL_FILENAME fresh))
    = (Ok (Some m2), s2)
    /\ m2 = sample_model
    /\ forall df, predict m2 df = predict sample_model df.
Proof.
  apply (load_twice_same_handle (disk_with sample_model scenario_inputs false)
           (corrupt_disk scenario_inputs true) MODEL_FILENAME fresh sample_model).
  vm_compute. reflexivity.
Defined.

(** ** Caches that runs leave behind *)

Lemma cache_wf_empty : cache_wf ∅.
Proof. intros entry H. rewrite lookup_empty in H. discriminate. Qed.

Lemma load_entry_wf w filename :
  (forall b, load_attempt w filename <> RaiseBase b) ->
  entry_wf (mkEntry (load_value w filename) (load_notice w filename)).
Proof.
  unfold entry_wf, load_value, load_notice. cbn [cached_value cached_elements].
  intros Hb. destruct (load_attempt w filename) as [v|e|b].
  - eexists. left. reflexivity.
  - eexists. right. split; reflexivity.
  - now destruct (Hb b).
Qed.

Lemma cache_wf_next w cache : cache_wf cache -> cache_wf (next_cache w cache).
Proof.
  intros Hwf entry. unfold next_cache.
  destruct (load_exit w cache) as [b|] eqn:El; [apply Hwf|].
  destruct (load_exit_none w cache El) as [[entry0 E]|[E Hb]]; rewrite E.
  - apply Hwf.
  - rewrite lookup_insert_eq. intros [= <-]. now apply load_entry_wf.
Qed.

Lemma cache_wf_after history : forall cache,
  cache_wf cache -> cache_wf (cache_after history cache).
Proof.
  induction history as [|w later IH]; intros cache Hwf; simpl; [exact Hwf|].
  apply IH. rewrite run_cache. now apply cache_wf_next.
Qed.

(** With such a cache the load shows at most one notice, a success or
    an error, and after an error there is no handle. *)
Lemma loading_notice w cache :
  cache_wf cache ->
  loading w cache = []
  \/ exists body,
       loading w cache = [el_success body] \/
       (loading w cache = [el_error body] /\ loaded_model w cache = None).
Proof.
  intros Hwf. rewrite loaded_model_eq. unfold loading.
  destruct (cache !! MODEL_FILENAME) as [entry|] eqn:E.
  - right. apply (Hwf entry E).
  - unfold load_notice, load_value.
    destruct (load_attempt w MODEL_FILENAME) as [v|e|b]; [right|right|left; reflexivity].
    + eexists. left. reflexivity.
    + eexists. right. split; reflexivity.
Qed.

(** ** What is on the page *)

Lemma in_run_page x w cache :
  In x (page (snd (run w cache))) ->
  x = el_page_config "动漫总播放量预测器" "📺"
  \/ In x (loading w cache) \/ In x top
  \/ In x (body_page (loaded_model w cache) w) \/ In x bottom.
Proof.
  rewrite run_page. intros [H|H]; [left; now symmetry|right].
  destruct (load_exit w cache); [destruct H|].
  rewrite !in_app_iff in H. unfold closing in H.
  destruct (body_exit (loaded_model w cache) w); [|exact H].
  decompose [or] H; auto. contradiction.
Qed.

(** What the load and the body render is on the page of a run that gets
    past the load. *)
Lemma in_run_page_body x w cache :
  load_exit w cache = None ->
  In x (loading w cache) \/ In x (body_page (loaded_model w cache) w) ->
  In x (page (snd (run w cache))).
Proof.
  intros Hl H. rewrite run_page, Hl. right. rewrite !in_app_iff. tauto.
Qed.

Lemma form_page_kinds :
  forallb (fun el => negb (is_warning el)) form_page = true
  /\ existsb is_button form_page = true.
Proof. split; vm_compute; reflexivity. Qed.

Lemma click_elements_kinds r :
  forallb (fun el => negb (is_warning el) && negb (is_button el)) (click_elements r) = true.
Proof.
  destruct r as [[|x p]|e|b]; try reflexivity.
  cbn [click_elements first]. destruct (format_spec x); reflexivity.
Qed.

Lemma body_page_no_warning model w body :
  ~ In (el_warning body) (body_page model w).
Proof.
  destruct model as [m|]; cbn [body_page]; [|intros []].
  rewrite in_app_iff. intros [H|H].
  - destruct form_page_kinds as [Hk _].
    rewrite forallb_forall in Hk. apply Hk in H. discriminate.
  - unfold click_page in H. destruct (clicked w); [|destruct H].
    pose proof (click_elements_kinds (predict m (schema_frame (user w)))) as Hk.
    rewrite forallb_forall in Hk. apply Hk in H. discriminate.
Qed.

(** Indexing and formatting raise nothing but instances of [Exception]. *)
Lemma first_no_exit prediction b : first prediction <> RaiseBase b.
Proof. destruct prediction; discriminate. Qed.



Lemma in_click_page x m w cache :
  loaded_model w cache = Some m -> clicked w = true ->
  In x (click_elements (predict m (schema_frame (user w)))) ->
  In x (page (snd (run w cache))).
Proof.
  intros Hm Hc Hx. apply in_run_page_body; [now apply (loaded_no_load_exit _ _ m)|].
  right. rewrite Hm. cbn [body_page]. apply in_or_app. right.
  unfold click_page. now rewrite Hc.
Qed.

(** The form ends with the button, which is its only one. *)
Lemma form_page_ends_with_button :
  form_page = (form_widgets ++ [predict_button])%list
  /\ forallb (fun el => negb (is_button el)) form_widgets = true.
Proof. split; vm_compute; reflexivity. Qed.

(** With a handle, the page is: the page above the button, the button,
    what the click added, and the closing elements unless the click
    ended the run. *)
Lemma page_with_model w cache m :
  loaded_model w cache = Some m ->
  page (snd (run w cache))
  = (above_button w cache ++ predict_button :: click_page m w ++ closing (Some m) w)%list.
Proof.
  intros Hm. rewrite run_page, (loaded_no_load_exit _ _ _ Hm), Hm.
  cbn [body_page]. unfold above_button.
  destruct form_page_ends_with_button as (E & _).
  revert E. generalize form_page, form_widgets. intros fp fw ->.
  rewrite <- !app_comm_cons. f_equal. rewrite <- !app_assoc. reflexivity.
Qed.

Lemma page_after_button w cache m :
  loaded_model w cache = Some m -> click_exit m w = None ->
  page (snd (run w cache))
  = (above_button w cache ++ predict_button :: click_page m w ++ bottom)%list.
Proof.
  intros Hm Hx. rewrite (page_with_model w cache m Hm).
  unfold closing. cbn [body_exit]. now rewrite Hx.
Qed.

(** ** Loading *)





(** ** Faults *)










(** ** The guard on the model *)

Lemma loading_kinds w cache x :
  cache_wf cache -> In x (loading w cache) ->
  is_warning x = false /\ is_button x = false.
Proof.
  intros Hwf Hx.
  destruct (loading_notice w cache Hwf) as [Hl|(body & [Hl|[Hl _]])];
    rewrite Hl in Hx; [destruct Hx| |];
    destruct Hx as [<-|[]]; split; reflexivity.
Qed.

Lemma chrome_kinds x :
  x = el_page_config "动漫总播放量预测器" "📺" \/ In x top \/ In x bottom ->
  is_warning x = false /\ is_button x = false.
Proof.
  unfold top, bottom. cbn [In].
  intros H; decompose [or] H; subst; try contradiction; split; reflexivity.
Qed.

(** C7 — A load that fails leaves the run without a model handle, and
    in a run in which the handle is absent, in a process with any
    history of earlier runs, [predict] is never invoked and the button
    that triggers it is not on the page: the action is withheld by the
    test of the handle that encloses the form. *)
Theorem no_model_no_predict history w :
  (forall e,
     cache_after history ∅ !! MODEL_FILENAME = None ->
     load_attempt w MODEL_FILENAME = Raise e ->
     loaded_model w (cache_after history ∅) = None)
  /\ (loaded_model w (cache_after history ∅) = None ->
      predict_calls (snd (run w (cache_after history ∅))) = []
      /\ forall label,
           ~ In (el_button label) (page (snd (run w (cache_after history ∅))))).
Proof.
  split.
  - intros e Hmiss He. rewrite loaded_model_eq, Hmiss.
    unfold load_value. now rewrite He.
  - intros Hnone. split.
    + rewrite run_calls_cases. now rewrite Hnone.
    + intros label Hin. apply in_run_page in Hin. rewrite Hnone in Hin.
      cbn [body_page In] in Hin.
      assert (Hk : is_warning (el_button label) = false
                   /\ is_button (el_button label) = false).
      { destruct Hin as [H|[H|[H|[[]|H]]]].
        - apply chrome_kinds; auto.
        - apply (loading_kinds w (cache_after history ∅)); [|exact H].
          apply cache_wf_after, cache_wf_empty.
        - apply chrome_kinds; auto.
        - apply chrome_kinds; auto. }
      destruct Hk as [_ Hk]. discriminate Hk.
Qed.

Lemma no_model_no_predict_witness :
  loaded_model (empty_disk scenario_inputs true) (cache_after [] ∅) = None
  /\ predict_calls (snd (run (empty_disk scenario_inputs true) (cache_after [] ∅))) = []
  /\ predict_calls (snd (run (disk_with sample_model scenario_inputs true)
                             (cache_after [empty_disk scenario_inputs true] ∅))) = [].
Proof.
  destruct (no_model_no_predict [] (empty_disk scenario_inputs true)) as [Hload Hnone].
  assert (H : loaded_model (empty_disk scenario_inputs true) (cache_after [] ∅) = None).
  { apply (Hload (mkExn FileNotFoundError
                    "[Errno 2] No such file or directory: 'random_forest_model.pkl'"));
      vm_compute; reflexivity. }
  split; [exact H|]. split; [exact (proj1 (Hnone H))|].
  destruct (no_model_no_predict [empty_disk scenario_inputs true]
              (disk_with sample_model scenario_inputs true)) as [_ Hnone'].
  apply Hnone'. vm_compute. reflexivity.
Defined.

(** C9 — The warning of the inner [else] is never rendered: in no run,
    after any history of earlier runs, whatever the disk, the artifact
    and the user do, is a warning on the page.  The form is laid out
    only under the outer test, and the handle tested there is the one
    the click handler tests again. *)
Theorem inner_warning_unreachable history w body :
  ~ In (el_warning body) (page (snd (run w (cache_after history ∅)))).
Proof.
  intros Hin. apply in_run_page in Hin.
  assert (Hk : is_warning (el_warning body) = false).
  { destruct Hin as [H|[H|[H|[H|H]]]].
    - apply chrome_kinds; auto.
    - apply (loading_kinds w (cache_after history ∅)); [|exact H].
      apply cache_wf_after, cache_wf_empty.
    - apply chrome_kinds; auto.
    - now apply body_page_no_warning in H.
    - apply chrome_kinds; auto. }
  discriminate Hk.
Qed.

(** ** The widgets and the domains of the fields *)









(** The boundaries named in the claim are within the domains. *)
Lemma form_domain_boundaries :
  form_domain f_episode_count (Int 1) /\ form_domain f_episode_count (Int 500)
  /\ form_domain f_topic_0 (Float 0) /\ form_domain f_topic_0 (Float 1).
Proof.
  cbn [form_domain spec_domain]. repeat split; try lia; discriminate.
Qed.






(** ** The printed number *)

Lemma uint_digits_are_digits u : forallb is_digit (uint_digits u) = true.
Proof. induction u; cbn [uint_digits forallb]; auto. Qed.

Lemma uint_digits_nil u : uint_digits u = [] -> u = Decimal.Nil.
Proof. destruct u; [reflexivity|discriminate..]. Qed.

Lemma decimal_digits_nonempty n : decimal_digits n <> [].
Proof.
  unfold decimal_digits. intros H. apply uint_digits_nil in H.
  destruct n as [|p]; [discriminate|].
  exact (Unsigned.to_uint_nonnil p H).
Qed.

Lemma digits_value_uint u acc :
  fold_left (fun acc c => 10 * acc + digit_value c)%N (uint_digits u) acc
  = (Unsigned.of_lu (Decimal.rev u) + acc * 10 ^ Unsigned.usize u)%N.
Proof.
  revert acc.
  induction u; intros acc; cbn [uint_digits fold_left Unsigned.usize];
    [cbn; lia|..];
    rewrite IHu; unfold Decimal.rev at 2; cbn [Decimal.revapp];
    rewrite (Unsigned.of_lu_revapp u); rewrite N.pow_succ_r';
    set (X := (10 ^ Unsigned.usize u)%N);
    set (Y := Unsigned.of_lu (Decimal.rev u));
    vm_compute digit_value; cbn [Unsigned.of_lu]; ring.
Qed.

(** Reading the digits of [n] gives [n] back. *)
Lemma digits_value_decimal n : digits_value (decimal_digits n) = n.
Proof.
  unfold digits_value, decimal_digits. rewrite digits_value_uint.
  rewrite <- Unsigned.of_uint_alt. rewrite N.mul_0_l, N.add_0_r.
  apply DecimalN.Unsigned.of_to.
Qed.

(** The digits of [n] start with a zero only when they are that zero. *)
Lemma decimal_digits_no_leading_zero n rest :
  decimal_digits n = "0"%char :: rest -> rest = [].
Proof.
  unfold decimal_digits. intros H.
  assert (Hnorm : N.to_uint n = Decimal.unorm (N.to_uint n)).
  { rewrite <- DecimalN.Unsigned.to_of. now rewrite DecimalN.Unsigned.of_to. }
  destruct (N.to_uint n) as [|u| | | | | | | | |] eqn:E; try discriminate H.
  injection H as H. subst rest.
  unfold Decimal.unorm in Hnorm.
  destruct (Decimal.nzhead (Decimal.D0 u)) eqn:Hz;
    try (exfalso; injection Hnorm as <-; exact (nzhead_nonzero _ _ Hz)); try discriminate.
  injection Hnorm as ->. reflexivity.
Qed.

Lemma one_digit n :
  (n < 10)%N ->
  exists d, uint_digits (N.to_uint n) = [d] /\ is_digit d = true /\ digit_value d = n.
Proof.
  intros H.
  assert (Hn : In n [0; 1; 2; 3; 4; 5; 6; 7; 8; 9]%N).
  { cbn [In]. lia. }
  cbn [In] in Hn. decompose [or] Hn; try contradiction; subst n;
    eexists; repeat split; reflexivity.
Qed.

Lemma two_digits_shape n :
  (n < 100)%N ->
  exists d1 d2, two_digits n = [d1; d2] /\ is_digit d1 = true /\ is_digit d2 = true
                /\ digits_value [d1; d2] = n.
Proof.
  intros H. unfold two_digits.
  destruct (one_digit (n / 10)) as (d1 & -> & H1 & V1).
  { apply N.Div0.div_lt_upper_bound. lia. }
  destruct (one_digit (n mod 10)) as (d2 & -> & H2 & V2).
  { apply N.mod_lt. lia. }
  exists d1, d2. repeat split; auto.
  unfold digits_value. cbn [fold_left]. rewrite V1, V2.
  pose proof (N.div_mod n 10 ltac:(lia)). lia.
Qed.

Lemma join_commas_snoc groups g :
  groups <> [] ->
  join_commas (groups ++ [g]) = (join_commas groups ++ ","%char :: g)%list.
Proof.
  induction groups as [|g0 rest IH]; [congruence|intros _].
  destruct rest as [|g1 rest'].
  - reflexivity.
  - change (join_commas ((g0 :: g1 :: rest') ++ [g]))
      with (g0 ++ ","%char :: join_commas ((g1 :: rest') ++ [g]))%list.
    rewrite IH by discriminate.
    change (join_commas (g0 :: g1 :: rest'))
      with (g0 ++ ","%char :: join_commas (g1 :: rest'))%list.
    rewrite <- app_assoc. reflexivity.
Qed.

(** The grouping works on the reversed digits, three at a time. *)
Lemma group_rev_shape : forall (n : nat) (l : list ascii),
  (length l <= n)%nat -> l <> [] ->
  exists leading more,
    rev (group_rev l) = join_commas (leading :: more)
    /\ concat (leading :: more) = rev l
    /\ (1 <= length leading <= 3)%nat
    /\ Forall (fun g => length g = 3%nat) more.
Proof.
  induction n as [|n IH]; intros l Hlen Hne.
  - destruct l; [congruence|simpl in Hlen; lia].
  - destruct l as [|a [|b [|c [|d rest]]]]; [congruence|..].
    + exists [a], []. cbn. repeat split; auto.
    + exists [b; a], []. cbn. repeat split; auto.
    + exists [c; b; a], []. cbn. repeat split; auto.
    + destruct (IH (d :: rest)) as (leading & more & Hg & Hc & Hl & Hm).
      { simpl in *. lia. } { discriminate. }
      exists leading, (more ++ [[c; b; a]])%list.
      split; [|split; [|split]].
      * change (group_rev (a :: b :: c :: d :: rest))
          with (a :: b :: c :: ","%char :: group_rev (d :: rest)).
        change (rev (a :: b :: c :: ","%char :: group_rev (d :: rest)))
          with ((((rev (group_rev (d :: rest)) ++ [","%char]) ++ [c]) ++ [b]) ++ [a])%list.
        rewrite Hg.
        change (leading :: more ++ [[c; b; a]])%list
          with ((leading :: more) ++ [[c; b; a]])%list.
        rewrite join_commas_snoc by discriminate.
        rewrite <- !app_assoc. reflexivity.
      * change (leading :: more ++ [[c; b; a]])%list
          with ((leading :: more) ++ [[c; b; a]])%list.
        rewrite concat_app, Hc. cbn [concat rev]. rewrite app_nil_r.
        rewrite <- !app_assoc. reflexivity.
      * exact Hl.
      * apply Forall_app. split; [exact Hm|]. repeat constructor.
Qed.

Lemma group_thousands_shape ds :
  ds <> [] ->
  exists leading more,
    group_thousands ds = join_commas (leading :: more)
    /\ concat (leading :: more) = ds
    /\ (1 <= length leading <= 3)%nat
    /\ Forall (fun g => length g = 3%nat) more.
Proof.
  intros Hne. unfold group_thousands.
  destruct (group_rev_shape (length (rev ds)) (rev ds)) as (leading & more & Hg & Hc & H).
  - lia.
  - intros H. apply (f_equal (@rev ascii)) in H. rewrite rev_involutive in H. auto.
  - exists leading, more. rewrite rev_involutive in Hc. auto.
Qed.

Lemma round_half_even_near n d :
  0 <= n ->
  0 <= round_half_even (n # d)
  /\ 2 * Z.abs (round_half_even (n # d) * Z.pos d - n) <= Z.pos d.
Proof.
  intros Hn. unfold round_half_even. cbn [Qnum Qden].
  pose proof (Z.div_mod n (Z.pos d) ltac:(lia)) as Hdm.
  pose proof (Z.mod_pos_bound n (Z.pos d) ltac:(lia)) as Hr.
  pose proof (Z.div_pos n (Z.pos d) Hn ltac:(lia)) as Hfl.
  set (fl := n / Z.pos d) in *. set (r := n mod Z.pos d) in *.
  destruct (Z.compare_spec (2 * r) (Z.pos d)) as [He|Hlt|Hgt].
  - destruct (Z.even fl); split; nia.
  - split; nia.
  - split; nia.
Qed.

Lemma hundredths_near q :
  (Qabs (inject_Z (Z.of_N (hundredths q)) - Qabs q * 100) <= 1 # 2)%Q.
Proof.
  unfold hundredths.
  assert (Hx : (0 <= Qabs q * 100)%Q).
  { apply Qmult_le_0_compat; [apply Qabs_nonneg|discriminate]. }
  destruct (Qabs q * 100)%Q as [n d].
  assert (Hn : 0 <= n) by (unfold Qle in Hx; simpl in Hx; lia).
  destruct (round_half_even_near n d Hn) as [H0 Hnear].
  rewrite Z2N.id by exact H0.
  set (z := round_half_even (n # d)) in *.
  apply Qabs_Qle_condition. unfold Qle, Qminus, Qplus, Qopp, inject_Z. simpl.
  split; lia.
Qed.

Lemma format_comma_2f_shape q : comma_2f_shape q (format_comma_2f q).
Proof.
  unfold comma_2f_shape, format_comma_2f. cbv zeta.
  rewrite list_ascii_of_string_of_list_ascii.
  destruct (group_thousands_shape (decimal_digits (hundredths q / 100)))
    as (leading & more & Hg & Hc & Hl & Hm).
  { apply decimal_digits_nonempty. }
  destruct (two_digits_shape (hundredths q mod 100)) as (d1 & d2 & Ht & H1 & H2 & Hv).
  { apply N.mod_lt. discriminate. }
  exists (match (q ?= 0)%Q with Lt => ["-"%char] | _ => [] end), leading, more, d1, d2.
  rewrite Hg, Ht. split; [reflexivity|].
  split; [|split; [exact Hl|split; [exact Hm|split; [|split; [|split]]]]].
  - destruct (q ?= 0)%Q eqn:E.
    + right. split; [|reflexivity]. apply Qeq_alt in E. rewrite E. apply Qle_refl.
    + left. split; [|reflexivity]. now apply Qlt_alt.
    + right. split; [|reflexivity]. apply Qlt_le_weak. now apply Qgt_alt.
  - rewrite Hc, forallb_app. unfold decimal_digits.
    rewrite uint_digits_are_digits. cbn [forallb]. now rewrite H1, H2.
  - rewrite Hc. apply decimal_digits_no_leading_zero.
  - rewrite Hc, digits_value_decimal, Hv.
    pose proof (N.div_mod (hundredths q) 100 ltac:(lia)). lia.
  - apply hundredths_near.
Qed.

(** C6, as the script has it — When [predict] returns a sequence that
    starts with a float, the page shows the result notice built from
    that first element and from nothing else, printed with [,.2f].  For
    a finite float that is an optional minus sign, the integer digits in
    comma-separated groups of three, a point and exactly two digits, for
    the number of hundredths nearest to the value (an exact tie going to
    the even one); negative zero is printed as -0.00.  An infinity or a
    nan is printed as inf, -inf or nan, which is no decimal. *)
Theorem displayed_prediction w cache m x others text :
  loaded_model w cache = Some m ->
  clicked w = true ->
  predict m (schema_frame (user w)) = Ok (x :: others) ->
  format_spec x = Ok text ->
  In (el_success ("🎉 预测的总播放量为: **" ++ text ++ " 万**"))
     (page (snd (run w cache)))
  /\ match x with
     | Float64 q => text = format_comma_2f q /\ comma_2f_shape q text
     | NegativeZero => text = "-0.00"
     | Infinity negative => text = if negative then "-inf" else "inf"
     | NotANumber => text = "nan"
     | Object _ => False
     end.
Proof.
  intros Hm Hc Hp Hx. split.
  - apply (in_click_page _ m); auto. rewrite Hp.
    cbn [click_elements first]. rewrite Hx. right. left. reflexivity.
  - destruct x as [q| |negative| |t]; cbn [format_spec] in Hx;
      try (injection Hx as <-; reflexivity); [|discriminate Hx].
    injection Hx as <-. split; [reflexivity|apply format_comma_2f_shape].
Qed.

Lemma displayed_prediction_witness :
  In (el_success "🎉 预测的总播放量为: **10,627.19 万**")
     (page (snd (run (disk_with sample_model scenario_inputs true) ∅)))
  /\ "10,627.19" = format_comma_2f (8501750000 # 800000)
  /\ comma_2f_shape (8501750000 # 800000) "10,627.19".
Proof.
  apply (displayed_prediction (disk_with sample_model scenario_inputs true) ∅
           sample_model (Float64 (8501750000 # 800000)) [] "10,627.19");
    vm_compute; reflexivity.
Defined.

(** C6, as the claim words it, fails: an artifact that answers with nan
    makes a successful prediction, and the result notice shows nan,
    which has no digit in it. *)
Lemma nan_is_displayed_as_nan :
  fst (run (disk_with nan_model scenario_inputs true) ∅) = Ok tt
  /\ In (el_success "🎉 预测的总播放量为: **nan 万**")
        (page (snd (run (disk_with nan_model scenario_inputs true) ∅)))
  /\ format_spec NotANumber = Ok "nan"
  /\ existsb is_digit (list_ascii_of_string "nan") = false.
Proof. split; [|split; [|split]]; vm_compute; try reflexivity. tauto. Qed.

(** ** Runs on sample inputs *)

(** The inner [else] is there: run on its own without a handle, the
    click handler renders the warning. *)
Example on_click_without_model :
  page (snd (on_click None scenario_inputs fresh))
  = [el_warning "模型尚未成功加载，无法进行预测。请检查模型文件。"].
Proof. reflexivity. Qed.

(** Selecting a label that is no column raises, and the order of the
    selection wins over the order of the dict. *)
Example getitem_missing_column :
  getitem (DataFrame_of_records [dict_literal [("集数", Int 12)]]) ["集数"; "产地"]
  = Raise (mkExn KeyError "产地 not in index").
Proof. reflexivity. Qed.

Example getitem_reorders :
  getitem (DataFrame_of_records [dict_literal [("产地", Int 3); ("集数", Int 12)]])
          ["集数"; "产地"]
  = Ok {| columns := ["集数"; "产地"]; rows := [[Int 12; Int 3]] |}.
Proof. reflexivity. Qed.

Example format_millions : format_comma_2f (1234567891 # 1000) = "1,234,567.89".
Proof. reflexivity. Qed.

Example format_tie_to_even :
  format_comma_2f (1 # 8) = "0.12" /\ format_comma_2f (3 # 8) = "0.38".
Proof. split; reflexivity. Qed.

Example format_small_negative : format_comma_2f (-1 # 1000) = "-0.00".
Proof. reflexivity. Qed.

Example format_carry : format_comma_2f (999996 # 1000) = "1,000.00".
Proof. reflexivity. Qed.

(** A result that is no number is a fault of the [try], and is rendered. *)
Example object_result_is_rendered :
  click_elements (Ok [Object "NoneType"])
  = [el_balloons;
     el_error "❌ 预测过程中发生错误: unsupported format string passed to NoneType.__format__"].
Proof. reflexivity. Qed.

(** The scenario of the spec, on the stand-in regressor. *)
Example scenario_run :
  fst (run (disk_with sample_model scenario_inputs true) ∅) = Ok tt
  /\ map snd (predict_calls (snd (run (disk_with sample_model scenario_inputs true) ∅)))
     = [schema_frame scenario_inputs]
  /\ widgets_sound (snd (run (disk_with sample_model scenario_inputs true) ∅)) = true.
Proof. repeat split; vm_compute; reflexivity. Qed.

(** A pickle of None loads with the success notice and gives no handle:
    the run shows no form and calls nothing, and the None is cached. *)
Example pickled_none_run :
  run (none_disk scenario_inputs true) ∅
  = (Ok tt,
     {| page := (el_page_config "动漫总播放量预测器" "📺"
                 :: el_success "✅ 模型加载成功！" :: top ++ bottom)%list;
        predict_calls := [];
        returned := [];
        resource_cache :=
          {[ MODEL_FILENAME := mkEntry None [el_success "✅ 模型加载成功！"] ]} |}).
Proof. vm_compute. reflexivity. Qed.

(** A load that an exception outside [Exception] leaves is not cached:
    the next run loads again. *)
Example exit_is_not_cached :
  cache_after [exiting_disk scenario_inputs false] ∅ = ∅
  /\ loaded_model (disk_with sample_model scenario_inputs true)
                  (cache_after [exiting_disk scenario_inputs false] ∅)
     = Some sample_model.
Proof. split; vm_compute; reflexivity. Qed.

(** A load that failed stays cached: the next run replays the error
    and shows no form, even if the file has appeared since. *)
Example failed_load_is_cached :
  loaded_model (disk_with sample_model scenario_inputs true)
               (cache_after [empty_disk scenario_inputs false] ∅) = None.
Proof. vm_compute. reflexivity. Qed.

(** * Further properties of the script *)

(** ** The dict, the frame and the selection of columns *)

(** The [filter] of the definitions above is stdpp's, at a boolean
    test: it keeps the elements on which the test gives true. *)
Lemma filter_bool_cons {A} (f : A -> bool) x l :
  filter f (x :: l) = if f x then x :: filter f l else filter f l.
Proof.
  rewrite filter_cons. destruct (f x); destruct (decide _) as [H|H];
    try reflexivity; exfalso; [apply H; exact I|exact H].
Qed.

Lemma filter_bool_nil {A} (f : A -> bool) : filter f [] = [].
Proof. reflexivity. Qed.

Lemma dict_set_fresh (d : dict) k v :
  ~ In k (dict_keys d) -> dict_set d k v = (d ++ [(k, v)])%list.
Proof.
  induction d as [|[k' v'] d IH]; intros Hk; [reflexivity|].
  cbn [dict_set]. destruct (String.eqb_spec k' k) as [->|Hne].
  - exfalso. apply Hk. now left.
  - rewrite <- app_comm_cons. f_equal. apply IH. intros Hin. apply Hk. now right.
Qed.

(** A dict display with distinct keys holds its items as written. *)
Lemma dict_literal_distinct items :
  List.NoDup (map fst items) -> dict_literal items = items.
Proof.
  unfold dict_literal.
  enough (H : forall acc, List.NoDup (map fst (acc ++ items)%list) ->
              fold_left (fun d kv => dict_set d (fst kv) (snd kv)) items acc
              = (acc ++ items)%list) by (apply (H [])).
  induction items as [|[k v] items IH]; intros acc Hnd.
  - now rewrite app_nil_r.
  - cbn [fold_left fst snd]. rewrite dict_set_fresh.
    + rewrite IH; rewrite <- app_assoc; [reflexivity|exact Hnd].
    + rewrite map_app in Hnd. apply List.NoDup_remove_2 in Hnd.
      intros Hin. apply Hnd. apply in_or_app. now left.
Qed.

Lemma mem_In k l : mem k l = true <-> In k l.
Proof.
  unfold mem. rewrite existsb_exists. split.
  - intros (x & Hx & He). apply String.eqb_eq in He. now subst x.
  - intros H. exists k. split; [exact H|apply String.eqb_refl].
Qed.

Lemma union_keys_single d : union_keys [d] = dict_keys d.
Proof.
  change (filter (fun k => negb (mem k [])) (dict_keys d) = dict_keys d).
  induction (dict_keys d) as [|k ks IH]; [reflexivity|].
  rewrite filter_bool_cons. cbn [mem existsb negb]. f_equal. exact IH.
Qed.

Lemma filter_eqb_distinct k cols :
  List.NoDup cols -> In k cols -> filter (String.eqb k) cols = [k].
Proof.
  induction cols as [|c cols IH]; intros Hnd Hin; [destruct Hin|].
  apply List.NoDup_cons_iff in Hnd as [Hc Hnd]. rewrite filter_bool_cons.
  destruct (String.eqb_spec k c) as [->|Hne].
  - f_equal. clear IH Hin.
    induction cols as [|c' cols IH]; [reflexivity|].
    rewrite filter_bool_cons. destruct (String.eqb_spec c c') as [->|_].
    + exfalso. apply Hc. now left.
    + apply IH.
      * intros H. apply Hc. now right.
      * now apply List.NoDup_cons_iff in Hnd as [_ Hnd].
  - destruct Hin as [->|Hin]; [congruence|]. now apply IH.
Qed.

Lemma select_map k (f : string -> cell) cols :
  select k cols (map f cols) = map f (filter (String.eqb k) cols).
Proof.
  induction cols as [|c cols IH]; [reflexivity|].
  cbn [map select]. rewrite filter_bool_cons, (String.eqb_sym c k).
  destruct (String.eqb k c); cbn [map]; now rewrite IH.
Qed.

Lemma cell_at_distinct items k v :
  List.NoDup (map fst items) -> In (k, v) items -> cell_at items k = v.
Proof.
  unfold cell_at.
  induction items as [|[k' v'] items IH]; intros Hnd Hin; [destruct Hin|].
  cbn [map fst] in Hnd. apply List.NoDup_cons_iff in Hnd as [Hk Hnd].
  cbn [dict_get]. destruct Hin as [[= -> ->]|Hin].
  - now rewrite String.eqb_refl.
  - destruct (String.eqb_spec k' k) as [->|_]; [|now apply IH].
    exfalso. apply Hk. apply (in_map fst) in Hin. exact Hin.
Qed.

(** X1 — Lines 140-160 for any dict display and any list of labels: when
    the keys of the display are distinct and every label asked for is
    one of them, the one-row frame made of the dict and then indexed by
    the labels has exactly those labels as columns, in the order asked
    for and not in the order of the dict, and under each label the value
    the dict binds to it. *)
Theorem frame_columns_by_label items labels :
  List.NoDup (map fst items) ->
  incl labels (map fst items) ->
  getitem (DataFrame_of_records [dict_literal items]) labels
  = Ok {| columns := labels; rows := [map (cell_at items) labels] |}
  /\ forall k v, In (k, v) items -> cell_at items k = v.
Proof.
  intros Hnd Hincl. split; [|intros k v; now apply cell_at_distinct].
  rewrite (dict_literal_distinct items Hnd).
  unfold getitem, DataFrame_of_records. cbv zeta. cbn [columns rows map].
  rewrite union_keys_single. fold (dict_keys items) in *.
  change (fun c => match dict_get items c with Some v => v | None => NaN end)
    with (cell_at items).
  assert (Hnone : filter (fun k => negb (mem k (dict_keys items))) labels = []).
  { clear Hnd. induction labels as [|k labels IH]; [reflexivity|].
    rewrite filter_bool_cons. rewrite (proj2 (mem_In k (dict_keys items))).
    - apply IH. intros x Hx. apply Hincl. now right.
    - apply Hincl. now left. }
  rewrite Hnone. f_equal. f_equal.
  - induction labels as [|k labels IH]; [reflexivity|].
    cbn [flat_map]. rewrite filter_eqb_distinct; auto.
    + change ([k] ++ ?l)%list with (k :: l). f_equal. apply IH.
      * intros x Hx. apply Hincl. now right.
      * clear IH. rewrite filter_bool_cons in Hnone.
        destruct (negb (mem k (dict_keys items))); [discriminate|exact Hnone].
    + apply Hincl. now left.
  - f_equal. clear Hnone.
    induction labels as [|k labels IH]; [reflexivity|].
    cbn [flat_map map]. rewrite select_map, filter_eqb_distinct; auto.
    + cbn [map]. change ([?a] ++ ?l)%list with (a :: l). f_equal.
      apply IH. intros x Hx. apply Hincl. now right.
    + apply Hincl. now left.
Qed.

Lemma frame_columns_by_label_witness :
  getitem (DataFrame_of_records
             [dict_literal [("产地", Int 3); ("集数", Int 12); ("Topic 0", Float (1 # 10))]])
          ["Topic 0"; "产地"]
  = Ok {| columns := ["Topic 0"; "产地"]; rows := [[Float (1 # 10); Int 3]] |}.
Proof.
  refine (proj1 (frame_columns_by_label
                   [("产地", Int 3); ("集数", Int 12); ("Topic 0", Float (1 # 10))]
                   ["Topic 0"; "产地"] _ _)).
  - repeat constructor; cbn [In]; intros H; decompose [or] H; try discriminate; assumption.
  - intros x Hx. cbn [In map fst] in *. decompose [or] Hx; subst; tauto.
Defined.

Lemma filter_bool_empty {A} (f : A -> bool) l :
  filter f l = [] <-> forall x, In x l -> f x = false.
Proof.
  induction l as [|a l IH]; [split; [intros _ x []|reflexivity]|].
  rewrite filter_bool_cons. destruct (f a) eqn:E.
  - split; [discriminate|]. intros H. rewrite (H a) in E; [discriminate|now left].
  - rewrite IH. split.
    + intros H x [<-|Hx]; [exact E|now apply H].
    + intros H x Hx. apply H. now right.
Qed.

(** X2 — Indexing a frame by a list of labels raises exactly when one
    of the labels is no column of the frame, and what it raises is then
    a KeyError; with every label present it returns a frame. *)
Theorem getitem_raises_iff_missing df labels :
  (exists k, In k labels /\ ~ In k (columns df))
  <-> exists e, getitem df labels = Raise e /\ exn_cls e = KeyError.
Proof.
  unfold getitem.
  destruct (filter (fun k => negb (mem k (columns df))) labels) as [|k0 missing] eqn:E.
  - split.
    + intros (k & Hk & Hno). exfalso.
      pose proof (proj1 (filter_bool_empty _ _) E k Hk) as H.
      apply negb_false_iff, mem_In in H. contradiction.
    + intros (e & He & _). discriminate He.
  - split.
    + intros _. eexists. split; reflexivity.
    + intros _. exists k0.
      assert (Hin : k0 ∈ filter (fun k => negb (mem k (columns df))) labels).
      { rewrite E. apply list_elem_of_here. }
      apply list_elem_of_filter in Hin as [Hneg Hin].
      split; [now apply list_elem_of_In|].
      rewrite <- mem_In. destruct (mem k0 (columns df)); [destruct Hneg|discriminate].
Qed.

(** ** The select boxes and their labels *)

Lemma lookup_option_In d x :
  In x (keys d) -> exists label, lookup_option d x = Ok label.
Proof.
  unfold lookup_option, keys.
  induction d as [|[k l] d IH]; intros Hin; [destruct Hin|].
  cbn [find fst]. destruct (Z.eqb_spec k x) as [->|Hne]; [now eexists|].
  destruct Hin as [Hin|Hin]; [cbn in Hin; congruence|]. now apply IH.
Qed.

Lemma lookup_option_missing d x :
  ~ In x (keys d) -> lookup_option d x = Raise (mkExn KeyError (repr_Z x)).
Proof.
  unfold lookup_option, keys.
  induction d as [|[k l] d IH]; intros Hno; [reflexivity|].
  cbn [find fst]. destruct (Z.eqb_spec k x) as [->|Hne].
  - exfalso. apply Hno. now left.
  - apply IH. intros Hin. apply Hno. now right.
Qed.

Lemma lookup_option_own d k l :
  List.NoDup (keys d) -> In (k, l) d -> lookup_option d k = Ok l.
Proof.
  unfold lookup_option, keys.
  induction d as [|[k' l'] d IH]; intros Hnd Hin; [destruct Hin|].
  cbn [map fst] in Hnd. apply List.NoDup_cons_iff in Hnd as [Hk Hnd].
  cbn [find fst]. destruct Hin as [[= -> ->]|Hin].
  - now rewrite Z.eqb_refl.
  - destruct (Z.eqb_spec k' k) as [->|_]; [|now apply IH].
    exfalso. apply Hk. apply (in_map fst) in Hin. exact Hin.
Qed.

Lemma mapM_own_keys d :
  List.NoDup (keys d) -> mapM (lookup_option d) (keys d) = Ok (map snd d).
Proof.
  intros Hnd.
  enough (H : forall l, incl l d ->
                        mapM (lookup_option d) (map fst l) = Ok (map snd l))
    by (apply H, incl_refl).
  induction l as [|[k lab] l IH]; intros Hincl; [reflexivity|].
  cbn [map mapM fst snd].
  rewrite (lookup_option_own d k lab Hnd) by (apply Hincl; now left).
  rewrite IH; [reflexivity|]. intros x Hx. apply Hincl. now right.
Qed.

Lemma combine_fst_snd_id {A B} (l : list (A * B)) : combine (map fst l) (map snd l) = l.
Proof. induction l as [|[a b] l IH]; [reflexivity|]. cbn. now rewrite IH. Qed.

(** X3 — A select box whose options are the keys of a dict and whose
    [format_func] indexes that same dict, as all five of the form are
    written, never faults: it is rendered with every key beside the
    text the dict gives it, and hands the chosen option back. *)
Theorem selectbox_over_own_keys (d : list (Z * string)) label chosen s :
  List.NoDup (keys d) ->
  st_selectbox label (keys d) (lookup_option d) chosen s
  = (Ok chosen,
     {| page := (page s ++ [el_selectbox label d])%list;
        predict_calls := predict_calls s;
        returned := (returned s ++ [(el_selectbox label d, Int chosen)])%list;
        resource_cache := resource_cache s |}).
Proof.
  intros Hnd. unfold st_selectbox.
  cbv [mbind M_bind mret M_ret lift widget_returns].
  rewrite (mapM_own_keys d Hnd). unfold keys. rewrite combine_fst_snd_id.
  reflexivity.
Qed.

Lemma selectbox_over_own_keys_witness :
  st_selectbox "产地" (keys origin_options) (lookup_option origin_options) 3 fresh
  = (Ok 3,
     {| page := [el_selectbox "产地" origin_options];
        predict_calls := [];
        returned := [(el_selectbox "产地" origin_options, Int 3)];
        resource_cache := ∅ |}).
Proof.
  apply (selectbox_over_own_keys origin_options "产地" 3 fresh).
  repeat constructor; cbn [In]; intros H; decompose [or] H; try discriminate; assumption.
Defined.

Lemma mapM_lookup_cases d options :
  (exists labels, mapM (lookup_option d) options = Ok labels
                  /\ forall x, In x options -> In x (keys d))
  \/ (exists e, mapM (lookup_option d) options = Raise e
                /\ exn_cls e = KeyError
                /\ exists x, In x options /\ ~ In x (keys d)).
Proof.
  induction options as [|x options IH]; [left; eexists; split; [reflexivity|intros x []]|].
  cbn [mapM]. destruct (in_dec Z.eq_dec x (keys d)) as [Hin|Hno].
  - destruct (lookup_option_In d x Hin) as (lab & ->).
    destruct IH as [(labels & -> & Hall)|(e & -> & He & y & Hy & Hno)].
    + left. eexists. split; [reflexivity|]. intros y [<-|Hy]; auto.
    + right. exists e. repeat split; auto. exists y. split; [now right|exact Hno].
  - rewrite (lookup_option_missing d x Hno). right. eexists. repeat split.
    exists x. split; [now left|exact Hno].
Qed.

(** X4 — A select box faults exactly when one of its options is no key
    of the dict its [format_func] indexes; what is raised is then a
    KeyError, and nothing has been rendered. *)
Theorem selectbox_faults_iff_unknown_option d label options chosen s :
  (exists x, In x options /\ ~ In x (keys d))
  <-> exists e, st_selectbox label options (lookup_option d) chosen s = (Raise e, s)
                /\ exn_cls e = KeyError.
Proof.
  unfold st_selectbox. cbv [mbind M_bind mret M_ret lift widget_returns].
  destruct (mapM_lookup_cases d options)
    as [(labels & -> & Hall)|(e & -> & He & Hx)].
  - split.
    + intros (x & Hx & Hno). exfalso. apply Hno, Hall, Hx.
    + intros (e & He & _). discriminate He.
  - split; [intros _; exists e; split; [reflexivity|exact He]|intros _; exact Hx].
Qed.

(** ** The resource cache over the life of a process *)

Lemma next_cache_hit w cache entry :
  cache !! MODEL_FILENAME = Some entry -> next_cache w cache = cache.
Proof.
  intros H. unfold next_cache. rewrite H. now destruct (load_exit w cache).
Qed.

Lemma next_cache_filled w cache :
  load_exit w cache = None ->
  exists entry, next_cache w cache !! MODEL_FILENAME = Some entry.
Proof.
  intros Hl. unfold next_cache. rewrite Hl.
  destruct (cache !! MODEL_FILENAME) as [entry|] eqn:E.
  - now exists entry.
  - eexists. apply lookup_insert_eq.
Qed.

Lemma cache_after_filled history : forall cache entry,
  cache !! MODEL_FILENAME = Some entry -> cache_after history cache = cache.
Proof.
  induction history as [|w later IH]; intros cache entry H; [reflexivity|].
  cbn [cache_after]. rewrite run_cache, (next_cache_hit w cache entry H).
  now apply (IH cache entry).
Qed.

Lemma cache_after_first w0 history cache :
  load_exit w0 cache = None ->
  cache_after (w0 :: history) cache = next_cache w0 cache.
Proof.
  intros Hl. cbn [cache_after]. rewrite run_cache.
  destruct (next_cache_filled w0 cache Hl) as (entry & H).
  now apply (cache_after_filled history _ entry).
Qed.

(** X5 — The load of the first run that gets past the load decides for
    the whole process: when the first run is not ended at the load by
    an exception outside [Exception], every later run, whatever the disk
    holds by then, has the handle the first run got, or none if the
    first load failed, and the cache is the one the first run left. *)
Theorem first_run_decides_handle w0 history cache w :
  load_exit w0 cache = None ->
  loaded_model w (cache_after (w0 :: history) cache) = loaded_model w0 cache
  /\ cache_after (w0 :: history) cache = cache_after [w0] cache.
Proof.
  intros Hl. rewrite !cache_after_first by exact Hl.
  split; [now apply loaded_model_kept|reflexivity].
Qed.

Lemma first_run_decides_handle_witness :
  loaded_model (disk_with sample_model scenario_inputs true)
               (cache_after [corrupt_disk scenario_inputs false;
                             disk_with sample_model scenario_inputs false] ∅)
  = loaded_model (corrupt_disk scenario_inputs false) ∅
  /\ cache_after [corrupt_disk scenario_inputs false;
                  disk_with sample_model scenario_inputs false] ∅
     = cache_after [corrupt_disk scenario_inputs false] ∅.
Proof.
  apply (first_run_decides_handle (corrupt_disk scenario_inputs false)
           [disk_with sample_model scenario_inputs false] ∅
           (disk_with sample_model scenario_inputs true)).
  vm_compute. reflexivity.
Defined.

Lemma body_same_inputs model w w' :
  user w = user w' -> clicked w = clicked w' ->
  body_page model w = body_page model w'
  /\ body_calls model w = body_calls model w'
  /\ body_returned model w = body_returned model w'
  /\ body_exit model w = body_exit model w'
  /\ closing model w = closing model w'.
Proof.
  intros Hu Hc.
  unfold closing, body_exit, click_exit, body_page, body_calls, body_returned,
    click_page, click_calls.
  rewrite Hu, Hc. auto.
Qed.

(** X6 — After a first run that got past the load, the file is never
    read again: a later run comes out the same, result, page, calls and
    cache, on any two disks, as long as the user's inputs and click are
    the same. *)
Theorem later_runs_ignore_disk w0 history cache w w' :
  load_exit w0 cache = None ->
  user w = user w' ->
  clicked w = clicked w' ->
  run w (cache_after (w0 :: history) cache) = run w' (cache_after (w0 :: history) cache).
Proof.
  intros Hl Hu Hc. rewrite cache_after_first by exact Hl.
  destruct (next_cache_filled w0 cache Hl) as (entry & H).
  rewrite !run_closed, !loaded_model_eq. unfold loading, load_exit.
  rewrite !(next_cache_hit _ _ entry H), H.
  destruct (body_same_inputs (cached_value entry) w w' Hu Hc) as (-> & -> & -> & -> & ->).
  reflexivity.
Qed.

Lemma later_runs_ignore_disk_witness :
  run (disk_with sample_model scenario_inputs true)
      (cache_after [disk_with mismatched_model scenario_inputs false] ∅)
  = run (empty_disk scenario_inputs true)
        (cache_after [disk_with mismatched_model scenario_inputs false] ∅).
Proof.
  apply (later_runs_ignore_disk (disk_with mismatched_model scenario_inputs false) [] ∅
           (disk_with sample_model scenario_inputs true)
           (empty_disk scenario_inputs true)); reflexivity.
Defined.

(** X7 — A run never drops or changes what the cache holds, and adds to
    it at most the entry of the model file: that entry is there after
    every run that gets past the load, and a run that the load ends
    leaves the cache as it found it.  What a run leaves depends on the
    disk alone, so nothing of the inputs, of the click or of a
    prediction is ever kept. *)
Theorem run_keeps_cache w cache :
  cache ⊆ resource_cache (snd (run w cache))
  /\ (load_exit w cache = None ->
      dom (resource_cache (snd (run w cache))) = dom cache ∪ {[MODEL_FILENAME]})
  /\ (forall b, load_exit w cache = Some b -> resource_cache (snd (run w cache)) = cache)
  /\ forall w',
       open_rb w' = open_rb w -> pickle_load w' = pickle_load w ->
       resource_cache (snd (run w' cache)) = resource_cache (snd (run w cache)).
Proof.
  rewrite run_cache. split; [|split; [|split]].
  - unfold next_cache.
    destruct (load_exit w cache); [reflexivity|].
    destruct (cache !! MODEL_FILENAME) as [entry|] eqn:E; [reflexivity|].
    now apply insert_subseteq.
  - intros Hl. unfold next_cache. rewrite Hl.
    destruct (cache !! MODEL_FILENAME) as [entry|] eqn:E.
    + apply elem_of_dom_2 in E.
      apply set_eq. intros k. rewrite elem_of_union, elem_of_singleton.
      split; [now left|intros [H| ->]; assumption].
    + rewrite dom_insert_L. apply set_eq. intros k.
      rewrite !elem_of_union, elem_of_singleton. tauto.
  - intros b Hl. now apply load_exit_loaded in Hl as (_ & _ & ->).
  - intros w' Ho Hp. rewrite run_cache. unfold next_cache, load_exit.
    unfold load_value, load_notice, load_attempt. now rewrite Ho, Hp.
Qed.

Lemma run_keeps_cache_witness :
  resource_cache (snd (run (disk_with sample_model scenario_inputs true) ∅))
  = resource_cache
      (snd (run (disk_with sample_model
                   (mkInputs 5 0 0 1 3 500 0 0 0 0 0 0 0 0 1) false) ∅)).
Proof.
  destruct (run_keeps_cache
              (disk_with sample_model (mkInputs 5 0 0 1 3 500 0 0 0 0 0 0 0 0 1) false) ∅)
    as (_ & _ & _ & H).
  apply (H (disk_with sample_model scenario_inputs true)); reflexivity.
Defined.

(** ** The button, the click and what follows the button on the page *)

(** X8 — In a process with any history of runs, the predict button is
    on the page exactly when the run has a model handle. *)
Theorem button_iff_model history w :
  (exists label, In (el_button label) (page (snd (run w (cache_after history ∅)))))
  <-> exists m, loaded_model w (cache_after history ∅) = Some m.
Proof.
  split.
  - intros (label & Hin).
    destruct (loaded_model w (cache_after history ∅)) as [m|] eqn:Hm; [now exists m|].
    exfalso. apply in_run_page in Hin. rewrite Hm in Hin. cbn [body_page In] in Hin.
    assert (Hk : is_warning (el_button label) = false
                 /\ is_button (el_button label) = false).
    { destruct Hin as [H|[H|[H|[[]|H]]]].
      - apply chrome_kinds; auto.
      - apply (loading_kinds w (cache_after history ∅)); [|exact H].
        apply cache_wf_after, cache_wf_empty.
      - apply chrome_kinds; auto.
      - apply chrome_kinds; auto. }
    destruct Hk as [_ Hk]. discriminate Hk.
  - intros (m & Hm). exists "点击预测总播放量".
    rewrite (page_with_model w _ m Hm).
    apply in_or_app. right. now left.
Qed.

(** X9 — A run invokes [predict] at most once, and it does invoke it
    exactly when it has a model handle and the button was clicked. *)
Theorem predict_at_most_once w cache :
  (length (predict_calls (snd (run w cache))) <= 1)%nat
  /\ (predict_calls (snd (run w cache)) <> []
      <-> (exists m, loaded_model w cache = Some m) /\ clicked w = true).
Proof.
  rewrite run_calls_cases.
  destruct (loaded_model w cache) as [m|]; [destruct (clicked w)|]; cbn [length].
  - split; [lia|]. split; [intros _; split; [now exists m|reflexivity]|discriminate].
  - split; [lia|]. split; [congruence|intros [_ H]; discriminate H].
  - split; [lia|]. split; [congruence|intros [[m H] _]; discriminate H].
Qed.

(** X10 — When [predict] raises, the error message comes right after
    the button and is followed only by the closing elements: the click
    renders neither the balloons nor a result notice. *)
Theorem failed_call_layout w cache m e :
  loaded_model w cache = Some m ->
  clicked w = true ->
  predict m (schema_frame (user w)) = Raise e ->
  page (snd (run w cache))
  = (above_button w cache
     ++ [predict_button; el_error (predict_error_message e)] ++ bottom)%list.
Proof.
  intros Hm Hc He. rewrite (page_after_button w cache m Hm).
  - unfold click_page. rewrite Hc, He. reflexivity.
  - unfold click_exit. now rewrite Hc, He.
Qed.

Lemma failed_call_layout_witness :
  page (snd (run (disk_with mismatched_model scenario_inputs true) ∅))
  = (above_button (disk_with mismatched_model scenario_inputs true) ∅
     ++ [predict_button;
         el_error "❌ 预测过程中发生错误: X has 15 features, but RandomForestRegressor is expecting 14 features as input."]
     ++ bottom)%list.
Proof.
  apply (failed_call_layout (disk_with mismatched_model scenario_inputs true) ∅
           mismatched_model
           (mkExn (OtherException "ValueError")
              "X has 15 features, but RandomForestRegressor is expecting 14 features as input."));
    reflexivity.
Defined.

(** X11 — When [predict] returns but its result cannot be shown, because
    the sequence is empty or its first element has no such format, the
    balloons have already been rendered: the page has the button, the
    balloons, the error message and then the closing elements. *)
Theorem unusable_result_layout w cache m prediction e :
  loaded_model w cache = Some m ->
  clicked w = true ->
  predict m (schema_frame (user w)) = Ok prediction ->
  inference m (schema_frame (user w)) = Raise e ->
  page (snd (run w cache))
  = (above_button w cache
     ++ [predict_button; el_balloons; el_error (predict_error_message e)]
     ++ bottom)%list.
Proof.
  intros Hm Hc Hp He. rewrite (page_after_button w cache m Hm).
  - unfold click_page. rewrite Hc.
    unfold inference in He. rewrite Hp in He. rewrite Hp. cbn [click_elements].
    destruct (first prediction) as [x|e'|b];
      [|injection He as ->; reflexivity|discriminate He].
    destruct (format_spec x) as [text|e'|b]; [discriminate He| |discriminate He].
    injection He as ->. reflexivity.
  - unfold click_exit. now rewrite Hc, Hp.
Qed.

Lemma unusable_result_layout_witness :
  page (snd (run (disk_with silent_model scenario_inputs true) ∅))
  = (above_button (disk_with silent_model scenario_inputs true) ∅
     ++ [predict_button; el_balloons;
         el_error "❌ 预测过程中发生错误: index 0 is out of bounds for axis 0 with size 0"]
     ++ bottom)%list.
Proof.
  apply (unusable_result_layout (disk_with silent_model scenario_inputs true) ∅
           silent_model []
           (mkExn IndexError "index 0 is out of bounds for axis 0 with size 0"));
    reflexivity.
Defined.

(** X12 — On a successful prediction the page has, right after the
    button and in this order, the balloons, the result notice and the
    note on how the result was obtained, and then the closing elements. *)
Theorem result_layout w cache m text :
  loaded_model w cache = Some m ->
  clicked w = true ->
  inference m (schema_frame (user w)) = Ok text ->
  page (snd (run w cache))
  = (above_button w cache
     ++ [predict_button; el_balloons; el_success (result_message text); result_note]
     ++ bottom)%list.
Proof.
  intros Hm Hc Ht. unfold inference in Ht.
  destruct (predict m (schema_frame (user w))) as [prediction|e|b] eqn:Hp;
    try discriminate Ht.
  rewrite (page_after_button w cache m Hm).
  - unfold click_page. rewrite Hc, Hp. cbn [click_elements].
    destruct (first prediction) as [x|e|b]; try discriminate Ht.
    rewrite Ht. reflexivity.
  - unfold click_exit. now rewrite Hc, Hp.
Qed.

Lemma result_layout_witness :
  page (snd (run (disk_with sample_model scenario_inputs true) ∅))
  = (above_button (disk_with sample_model scenario_inputs true) ∅
     ++ [predict_button; el_balloons;
         el_success "🎉 预测的总播放量为: **10,627.19 万**"; result_note]
     ++ bottom)%list.
Proof.
  apply (result_layout (disk_with sample_model scenario_inputs true) ∅
           sample_model "10,627.19"); vm_compute; reflexivity.
Defined.

(** X13 — Without a click nothing follows the button but the closing
    elements: a rerun caused by moving a widget shows no result, no
    error, and calls nothing. *)
Theorem idle_layout w cache m :
  loaded_model w cache = Some m ->
  clicked w = false ->
  predict_calls (snd (run w cache)) = []
  /\ page (snd (run w cache)) = (above_button w cache ++ [predict_button] ++ bottom)%list.
Proof.
  intros Hm Hc. split.
  - rewrite run_calls_cases, Hm, Hc. reflexivity.
  - rewrite (page_after_button w cache m Hm).
    + unfold click_page. rewrite Hc. reflexivity.
    + unfold click_exit. now rewrite Hc.
Qed.

Lemma idle_layout_witness :
  predict_calls (snd (run (disk_with sample_model scenario_inputs false) ∅)) = []
  /\ page (snd (run (disk_with sample_model scenario_inputs false) ∅))
     = (above_button (disk_with sample_model scenario_inputs false) ∅
        ++ [predict_button] ++ bottom)%list.
Proof.
  apply (idle_layout (disk_with sample_model scenario_inputs false) ∅ sample_model);
    reflexivity.
Defined.

(** ** The page without a model *)

(** X14 — The first run of a process in which the load fails: the page
    is the page configuration, the one error notice of the load, the
    title, the welcome text (which says the model file is loaded, all
    the same), the separator, the notes and the footer, and nothing
    else; no widget is rendered, nothing is called, and the cache keeps
    the absent handle together with the notice. *)
Theorem first_run_without_model w e :
  load_attempt w MODEL_FILENAME = Raise e ->
  run w ∅ =
  (Ok tt,
   {| page :=
        [el_page_config "动漫总播放量预测器" "📺";
         el_error (if is_FileNotFoundError e then not_found_message MODEL_FILENAME
                   else load_error_message e);
         el_title "📊 动漫总播放量预测应用";
         el_write welcome;
         el_markdown "---";
         el_markdown feature_notes;
         el_markdown footer];
      predict_calls := [];
      returned := [];
      resource_cache :=
        <[MODEL_FILENAME :=
            mkEntry None
              [el_error (if is_FileNotFoundError e then not_found_message MODEL_FILENAME
                         else load_error_message e)]]> ∅ |}).
Proof.
  intros He. rewrite run_closed, loaded_model_eq.
  unfold loading, next_cache, load_exit. rewrite lookup_empty.
  unfold load_value, load_notice. rewrite He. reflexivity.
Qed.

Lemma first_run_without_model_witness :
  page (snd (run (corrupt_disk scenario_inputs true) ∅))
  = [el_page_config "动漫总播放量预测器" "📺";
     el_error "❌ 加载模型时出错: pickle data was truncated";
     el_title "📊 动漫总播放量预测应用";
     el_write welcome;
     el_markdown "---";
     el_markdown feature_notes;
     el_markdown footer].
Proof.
  rewrite (first_run_without_model (corrupt_disk scenario_inputs true)
             (mkExn (OtherException "UnpicklingError") "pickle data was truncated")
             eq_refl).
  reflexivity.
Defined.

(** ** The frame and the inputs *)

(** X15 — The frame passed on keeps every input apart: two sets of
    collected values that give the same frame are the same values, field
    by field. *)
Theorem build_input_df_injective v v' :
  build_input_df v = build_input_df v' -> v = v'.
Proof.
  rewrite !build_input_df_ok. intros H.
  unfold schema_frame, schema in H. cbn [map value_of] in H.
  destruct v, v'. cbn in H. inversion H. reflexivity.
Qed.

Lemma build_input_df_injective_witness :
  build_input_df scenario_inputs = build_input_df scenario_inputs
  /\ scenario_inputs = scenario_inputs.
Proof.
  split; [reflexivity|].
  apply (build_input_df_injective scenario_inputs scenario_inputs). reflexivity.
Defined.

(** ** Instances of the equivalences above *)

Lemma getitem_raises_iff_missing_witness :
  exists e,
    getitem (DataFrame_of_records [dict_literal [("集数", Int 12)]]) ["集数"; "产地"]
    = Raise e
    /\ exn_cls e = KeyError.
Proof.
  apply (proj1 (getitem_raises_iff_missing
                  (DataFrame_of_records [dict_literal [("集数", Int 12)]])
                  ["集数"; "产地"])).
  exists "产地". split; [right; left; reflexivity|].
  vm_compute. intros [H|[]]. discriminate H.
Defined.

Lemma selectbox_faults_iff_unknown_option_witness :
  exists e,
    st_selectbox "产地" [1; 2; 4] (lookup_option origin_options) 1 fresh = (Raise e, fresh)
    /\ exn_cls e = KeyError.
Proof.
  apply (proj1 (selectbox_faults_iff_unknown_option origin_options "产地" [1; 2; 4] 1 fresh)).
  exists 4. split; [right; right; left; reflexivity|].
  vm_compute. intros H. decompose [or] H; try discriminate; assumption.
Defined.

Lemma button_iff_model_witness :
  exists label,
    In (el_button label)
       (page (snd (run (disk_with sample_model scenario_inputs false) (cache_after [] ∅)))).
Proof.
  apply (proj2 (button_iff_model [] (disk_with sample_model scenario_inputs false))).
  exists sample_model. reflexivity.
Defined.

Lemma predict_at_most_once_witness :
  (length (predict_calls (snd (run (disk_with sample_model scenario_inputs true) ∅))) <= 1)%nat
  /\ predict_calls (snd (run (disk_with sample_model scenario_inputs true) ∅)) <> [].
Proof.
  destruct (predict_at_most_once (disk_with sample_model scenario_inputs true) ∅)
    as [Hle Hiff].
  split; [exact Hle|].
  apply (proj2 Hiff). split; [exists sample_model|]; reflexivity.
Defined.
